(* ===================================================================== *)
(*  fifth / plane.py : the packed bit plane                               *)
(*                                                                       *)
(*  A shallow embedding of class Plane (src/src/plane.py) together with  *)
(*  the fragments of bitarray, numpy object arrays, str and random that  *)
(*  Plane calls, and the properties of the grid abstraction.             *)
(*                                                                       *)
(*  Python objects live in a store: bitarray objects and the element     *)
(*  buffers of numpy arrays are addressed, so that two handles on the    *)
(*  same row or buffer (a plane and a view of it) really alias.          *)
(*  Statements run in a state-and-exception monad over that store.       *)
(*                                                                       *)
(*  What is taken from the libraries:                                    *)
(*  - bitarray: [b[i]] for an integer [i] is a bit, with Python's        *)
(*    negative subscripts and IndexError out of range; [b[t]] for a      *)
(*    tuple [t] is a TypeError; a bitarray has no attribute [shape];     *)
(*    [bitarray(s)] reads a string of '0' and '1'.                       *)
(*  - numpy: [a[c0, ..., ck]] with integers selects an element when      *)
(*    there is a component for every dimension and otherwise a view on   *)
(*    the same buffer; [a.flat[i] = x] stores a reference to [x];        *)
(*    [np.array] of rows of one length is a two-dimensional array, and   *)
(*    [np.reshape] needs the number of elements to fit.                  *)
(*  - random: [randrange(a, b)] is a value of [a, b), ValueError when    *)
(*    the range is empty.                                                *)
(*  Subscripts are integers and tuples of integers; slices and lists     *)
(*  are outside the modelled fragment. Shapes are tuples of naturals.    *)
(* ===================================================================== *)

From Stdlib Require Import ZArith String Ascii Lia.
From stdpp Require Import base list sorting.

Local Open Scope Z_scope.

(* --------------------------------------------------------------------- *)
(* 1. The store, exceptions and the monad of Python statements            *)
(* --------------------------------------------------------------------- *)

(** A bitarray object is a sequence of bits. *)
Abbreviation bitarray := (list bool).

Definition addr := nat.

(** The exceptions the modelled fragment can raise. [SystemError] stands for
    a dangling reference, which no Python program can create. *)
Inductive exn :=
| IndexError | TypeError | AttributeError | ValueError | SystemError.

#[global] Instance exn_eq_dec : EqDecision exn.
Proof. solve_decision. Defined.

Inductive outcome (A : Type) :=
| Ok (a : A)
| Raise (e : exn).
Arguments Ok {A} a.
Arguments Raise {A} e.

(** [rows] are the bitarray objects, [bufs] the element buffers of the numpy
    object arrays (an element is None or a reference to a bitarray), and
    [entropy]/[drawn] the state of the module-level generator of [random]:
    the raw words it will produce and how many were consumed. *)
Record world := World {
  rows : list bitarray;
  bufs : list (list (option addr));
  entropy : nat -> Z;
  drawn : nat
}.

Definition M (A : Type) : Type := world -> outcome A * world.

#[global] Instance M_ret : MRet M := fun A a w => (Ok a, w).
#[global] Instance M_bind : MBind M := fun A B f m w =>
  match m w with
  | (Ok a, w') => f a w'
  | (Raise e, w') => (Raise e, w')
  end.

Definition raise {A} (e : exn) : M A := fun w => (Raise e, w).

(** [try: m except e: h] *)
Definition try_except {A} (m : M A) (e : exn) (h : M A) : M A := fun w =>
  match m w with
  | (Raise e', w') => if decide (e' = e) then h w' else (Raise e', w')
  | (Ok a, w') => (Ok a, w')
  end.

(** [for x in xs: body x] *)
Fixpoint for_each {A} (xs : list A) (body : A -> M unit) : M unit :=
  match xs with
  | [] => mret tt
  | x :: xs' => _ ← body x; for_each xs' body
  end.

(** [[f x for x in xs]] *)
Fixpoint list_comp {A B} (xs : list A) (f : A -> M B) : M (list B) :=
  match xs with
  | [] => mret []
  | x :: xs' => y ← f x; ys ← list_comp xs' f; mret (y :: ys)
  end.

(** [range(n)] *)
Definition range (n : nat) : list nat := seq 0 n.

(* --------------------------------------------------------------------- *)
(* 2. Python sequences: negative indices, [s[:-1]], [s[-1]]               *)
(* --------------------------------------------------------------------- *)

(** An integer subscript [c] into a sequence of length [d]: Python accepts
    [-d <= c < d], counting negative subscripts from the end. *)
Definition norm_index (c : Z) (d : nat) : option nat :=
  if (c <? - Z.of_nat d) || (Z.of_nat d <=? c) then None
  else Some (Z.to_nat (if c <? 0 then c + Z.of_nat d else c)).

(** [t[:-1]] *)
Definition but_last {A} (t : list A) : list A := removelast t.

(** [t[-1]] *)
Definition tuple_last {A} (t : list A) : outcome A :=
  match last t with
  | Some x => Ok x
  | None => Raise IndexError
  end.

(** [t[i]] for a tuple and a non-negative [i] *)
Definition tuple_get {A} (t : list A) (i : nat) : outcome A :=
  match t !! i with
  | Some x => Ok x
  | None => Raise IndexError
  end.

Definition lift {A} (o : outcome A) : M A := fun w => (o, w).

(* --------------------------------------------------------------------- *)
(* 3. bitarray                                                            *)
(* --------------------------------------------------------------------- *)

(** [bitarray(...)] / [n * bitarray('0')]: a new object. *)
Definition new_bits (b : bitarray) : M addr := fun w =>
  (Ok (length (rows w)),
   World (rows w ++ [b]) (bufs w) (entropy w) (drawn w)).

Definition deref (a : addr) : M bitarray := fun w =>
  match rows w !! a with
  | Some b => (Ok b, w)
  | None => (Raise SystemError, w)
  end.

(** [n * bitarray('0')] *)
Definition zeros (n : nat) : bitarray := repeat false n.

(** [bitarray(s)] for a string: every character must be '0' or '1'. *)
Fixpoint bits_of_string (s : string) : outcome bitarray :=
  match s with
  | EmptyString => Ok []
  | String c s' =>
      if Ascii.eqb c "0" then
        match bits_of_string s' with Ok b => Ok (false :: b) | Raise e => Raise e end
      else if Ascii.eqb c "1" then
        match bits_of_string s' with Ok b => Ok (true :: b) | Raise e => Raise e end
      else Raise ValueError
  end.

(* --------------------------------------------------------------------- *)
(* 4. str: bin, zfill                                                     *)
(* --------------------------------------------------------------------- *)

(** Binary digits of a positive number, most significant first. *)
Fixpoint pos_digits (p : positive) (acc : string) : string :=
  match p with
  | xH => String "1" acc
  | xO q => pos_digits q (String "0" acc)
  | xI q => pos_digits q (String "1" acc)
  end.

(** [bin(v)] *)
Definition bin (v : Z) : string :=
  match v with
  | Z0 => "0b0"
  | Zpos p => "0b" ++ pos_digits p EmptyString
  | Zneg p => "-0b" ++ pos_digits p EmptyString
  end.

(** [s[2:]] *)
Definition drop2 (s : string) : string :=
  String.substring 2 (String.length s - 2) s.

Fixpoint string_repeat (c : ascii) (n : nat) : string :=
  match n with
  | O => EmptyString
  | S n' => String c (string_repeat c n')
  end.

(** [s.zfill(width)]: pad with '0' on the left, after a leading sign. *)
Definition zfill (s : string) (width : nat) : string :=
  let pad := string_repeat "0" (width - String.length s) in
  match s with
  | String c s' =>
      if Ascii.eqb c "+" || Ascii.eqb c "-" then String c (pad ++ s')
      else (pad ++ s)%string
  | EmptyString => pad
  end.

(* --------------------------------------------------------------------- *)
(* 5. random.randrange                                                    *)
(* --------------------------------------------------------------------- *)

(** [random.randrange(start, stop)]: ValueError on an empty range, else a
    value of [start, stop). The generator is a stream of raw words; reducing
    a word into the range reaches every value of the range and nothing else,
    so a property proved for every [entropy] holds for every possible draw. *)
Definition randrange (start stop : Z) : M Z := fun w =>
  if stop <=? start then (Raise ValueError, w)
  else (Ok (start + entropy w (drawn w) mod (stop - start)),
        World (rows w) (bufs w) (entropy w) (S (drawn w))).

(* --------------------------------------------------------------------- *)
(* 6. numpy arrays of objects                                             *)
(* --------------------------------------------------------------------- *)

(** An ndarray of dtype object is a window on an element buffer: the buffer,
    the position of its first element, and its shape. The windows that arise
    here (whole arrays and the results of integer indexing) are contiguous
    and in row-major order. *)
Record ndarray := NdArray {
  nd_base : addr;
  nd_offset : nat;
  nd_dims : list nat
}.

(** The Python values that subscripting can yield. *)
Inductive obj :=
| PyNone
| Bit (b : bool)
| Bits (a : addr)
| Arr (v : ndarray).

Definition prod_dims (ds : list nat) : nat := foldr Nat.mul 1%nat ds.

(** [v.size] *)
Definition nd_size (v : ndarray) : nat := prod_dims (nd_dims v).

(** [np.empty(dims, dtype=np.object)]: a new buffer of None. *)
Definition np_empty (dims : list nat) : M ndarray := fun w =>
  (Ok (NdArray (length (bufs w)) 0 dims),
   World (rows w) (bufs w ++ [repeat None (prod_dims dims)])
         (entropy w) (drawn w)).

(** The element stored at position [k] of the buffer of [v]. *)
Definition nd_elem (v : ndarray) (k : nat) : M obj := fun w =>
  match bufs w !! nd_base v with
  | Some buf =>
      match buf !! k with
      | Some (Some a) => (Ok (Bits a), w)
      | Some None => (Ok PyNone, w)
      | None => (Raise SystemError, w)
      end
  | None => (Raise SystemError, w)
  end.

(** [v.flat[i]] for [i] of [range(v.size)] *)
Definition flat_get (v : ndarray) (i : nat) : M obj :=
  if (i <? nd_size v)%nat then nd_elem v (nd_offset v + i)
  else raise IndexError.

(** [v.flat[i] = a]: writes the buffer [v] is a window on. *)
Definition flat_set (v : ndarray) (i : nat) (a : addr) : M unit := fun w =>
  if (i <? nd_size v)%nat then
    match bufs w !! nd_base v with
    | Some buf =>
        if (nd_offset v + i <? length buf)%nat then
          (Ok tt,
           World (rows w)
                 (<[nd_base v := <[(nd_offset v + i)%nat := Some a]> buf]> (bufs w))
                 (entropy w) (drawn w))
        else (Raise SystemError, w)
    | None => (Raise SystemError, w)
    end
  else (Raise IndexError, w).

(** [v[c0, ..., ck]] with integer components: more components than
    dimensions, or a component out of range, is an IndexError; as many
    components as dimensions select an element; fewer select a sub-array,
    which is a window on the same buffer. *)
Fixpoint nd_walk (base : addr) (off : nat) (dims : list nat) (cs : list Z)
  : M obj :=
  match cs, dims with
  | [], [] => nd_elem (NdArray base off []) off
  | [], _ :: _ => mret (Arr (NdArray base off dims))
  | _ :: _, [] => raise IndexError
  | c :: cs', d :: dims' =>
      match norm_index c d with
      | None => raise IndexError
      | Some i => nd_walk base (off + i * prod_dims dims') dims' cs'
      end
  end.

Definition nd_index (v : ndarray) (cs : list Z) : M obj :=
  nd_walk (nd_base v) (nd_offset v) (nd_dims v) cs.

(** The subscripts of the modelled fragment: an integer and a tuple of
    integers. *)
Inductive index :=
| IInt (c : Z)
| ITuple (cs : list Z).

(** [o[i]] *)
Definition subscript (o : obj) (i : index) : M obj :=
  match o, i with
  | Bits a, IInt c =>
      b ← deref a;
      match norm_index c (length b) with
      | Some k => match b !! k with
                  | Some x => mret (Bit x)
                  | None => raise IndexError
                  end
      | None => raise IndexError
      end
  | Bits _, ITuple _ => raise TypeError
  | Arr v, IInt c => nd_index v [c]
  | Arr v, ITuple cs => nd_index v cs
  | PyNone, _ => raise TypeError
  | Bit _, _ => raise TypeError
  end.

(** [o.shape] *)
Definition get_shape (o : obj) : M (list nat) :=
  match o with
  | Arr v => mret (nd_dims v)
  | _ => raise AttributeError
  end.

(** [o.size] *)
Definition get_size (o : obj) : M nat :=
  match o with
  | Arr v => mret (nd_size v)
  | _ => raise AttributeError
  end.

(** [o.flat[i]] and [o.flat[i] = a] *)
Definition obj_flat_get (o : obj) (i : nat) : M obj :=
  match o with
  | Arr v => flat_get v i
  | _ => raise AttributeError
  end.

Definition obj_flat_set (o : obj) (i : nat) (a : addr) : M unit :=
  match o with
  | Arr v => flat_set v i a
  | _ => raise AttributeError
  end.

(** A dense numpy array of booleans (shape and row-major data), or, when
    [np.array] is given an object array, a fresh object array. *)
Inductive dense :=
| DBool (dims : list nat) (data : list bool)
| DObject (v : ndarray).

(** [list(o)] for an element of the grid. *)
Definition py_list (o : obj) : M (list bool) :=
  match o with
  | Bits a => deref a
  | _ => raise TypeError
  end.

(** [np.array(rows)] for a list of lists of booleans: a two-dimensional
    array when the rows have one length, a one-dimensional empty array for
    no rows; ragged rows are refused. *)
Definition np_array_rows (rs : list (list bool)) : M dense :=
  match rs with
  | [] => mret (DBool [0%nat] [])
  | r :: _ =>
      if forallb (fun r' => (length r' =? length r)%nat) rs
      then mret (DBool [length rs; length r] (concat rs))
      else raise ValueError
  end.

(** [np.array(o)] *)
Definition np_array (o : obj) : M dense :=
  match o with
  | Bits a => b ← deref a; mret (DBool [length b] b)
  | Bit x => mret (DBool [] [x])
  | PyNone => fun w =>
      (Ok (DObject (NdArray (length (bufs w)) 0 [])),
       World (rows w) (bufs w ++ [[None]]) (entropy w) (drawn w))
  | Arr v => fun w =>
      match bufs w !! nd_base v with
      | Some buf =>
          (Ok (DObject (NdArray (length (bufs w)) 0 (nd_dims v))),
           World (rows w)
                 (bufs w ++ [take (nd_size v) (drop (nd_offset v) buf)])
                 (entropy w) (drawn w))
      | None => (Raise SystemError, w)
      end
  end.

(** [np.reshape(d, shape)] *)
Definition np_reshape (d : dense) (shape : list nat) : M dense :=
  match d with
  | DBool _ data =>
      if (length data =? prod_dims shape)%nat then mret (DBool shape data)
      else raise ValueError
  | DObject v =>
      if (nd_size v =? prod_dims shape)%nat
      then mret (DObject (NdArray (nd_base v) (nd_offset v) shape))
      else raise ValueError
  end.

(** Row-major position of an integer coordinate in an array of shape
    [dims], as numpy resolves [d[c]] for a full coordinate. *)
Fixpoint dense_pos (dims : list nat) (cs : list Z) : option nat :=
  match cs, dims with
  | [], [] => Some 0%nat
  | c :: cs', d :: dims' =>
      match norm_index c d, dense_pos dims' cs' with
      | Some i, Some k => Some (i * prod_dims dims' + k)%nat
      | _, _ => None
      end
  | _, _ => None
  end.

(** [d[c]] for a tuple of integers [c]. *)
Definition dense_get (d : dense) (cs : list Z) : M obj :=
  match d with
  | DBool dims data =>
      match dense_pos dims cs with
      | Some k => match data !! k with
                  | Some b => mret (Bit b)
                  | None => raise SystemError
                  end
      | None => raise IndexError
      end
  | DObject v => nd_index v cs
  end.

Definition dense_shape (d : dense) : list nat :=
  match d with
  | DBool dims _ => dims
  | DObject v => nd_dims v
  end.

(* --------------------------------------------------------------------- *)
(* 7. class Plane                                                         *)
(* --------------------------------------------------------------------- *)

Module Plane.

(** The attributes of a Plane object. *)
Record t := Make {
  grid : obj;
  shape : list nat;
  N : nat
}.

(** What [__getitem__] returns: a value read from the storage, or a new
    Plane. *)
Inductive item :=
| Value (o : obj)
| View (p : t).

(** [0 if not len(shape) else shape[-1]] *)
Definition width (shape : list nat) : nat :=
  if (length shape =? 0)%nat then 0%nat else default 0%nat (last shape).

(** [Plane(shape, grid)] *)
Definition init (shape : list nat) (grid : option obj) : M t :=
  let N := width shape in
  match grid with
  | Some g => mret (Make g shape N)
  | None =>
      if (length shape =? 1)%nat then
        a ← new_bits (zeros N);
        mret (Make (Bits a) shape N)
      else
        v ← np_empty (but_last shape);
        _ ← for_each (range (nd_size v)) (fun i =>
              a ← new_bits (zeros N);
              flat_set v i a);
        mret (Make (Arr v) shape N)
  end.

(** [self[index]] *)
Definition getitem (self : t) (index : index) : M item :=
  match index with
  | ITuple cs =>
      if (length cs =? length (shape self))%nat then
        b_array ← subscript (grid self) (ITuple (but_last cs));
        c ← lift (tuple_last cs);
        x ← subscript b_array (IInt c);
        mret (Value x)
      else
        subgrid ← subscript (grid self) index;
        sh ← get_shape subgrid;
        p ← init (sh ++ [N self]) (Some subgrid);
        mret (View p)
  | IInt _ =>
      if (length (shape self) =? 1)%nat then
        x ← subscript (grid self) index;
        mret (Value x)
      else
        tmp ← subscript (grid self) index;
        try_except
          (sh ← get_shape tmp;
           p ← init (sh ++ [N self]) (Some tmp);
           mret (View p))
          AttributeError
          (p ← init [N self] (Some tmp);
           mret (View p))
  end.

(** [gen = lambda: bin(r.randrange(0, max_u))[2:]] *)
Definition gen (max_u : Z) : M string :=
  v ← randrange 0 max_u;
  mret (drop2 (bin v)).

(** [bitarray(gen().zfill(self.N))] *)
Definition random_row (max_u : Z) (N : nat) : M addr :=
  s ← gen max_u;
  b ← lift (bits_of_string (zfill s N));
  new_bits b.

(** [self.randomize()]; the result is [self] after the call. *)
Definition randomize (self : t) : M t :=
  if (0 <? length (shape self))%nat then
    let max_u := 2 ^ Z.of_nat (N self) - 1 in
    if (length (shape self) =? 1)%nat then
      a ← random_row max_u (N self);
      mret (Make (Bits a) (shape self) (N self))
    else
      sz ← get_size (grid self);
      _ ← for_each (range sz) (fun i =>
            a ← random_row max_u (N self);
            obj_flat_set (grid self) i a);
      mret self
  else mret self.

(** The loop of [flatten], over [reversed(range(len(coordinate[:-1])))]. *)
Fixpoint flatten_loop (shape : list nat) (coordinate : list Z)
    (idxs : list nat) (flat_index gridprod : Z) : outcome (Z * Z) :=
  match idxs with
  | [] => Ok (flat_index, gridprod)
  | i :: idxs' =>
      match tuple_get coordinate i with
      | Raise e => Raise e
      | Ok c =>
          let flat_index := flat_index + c * gridprod in
          match tuple_get shape i with
          | Raise e => Raise e
          | Ok d => flatten_loop shape coordinate idxs' flat_index
                      (gridprod * Z.of_nat d)
          end
      end
  end.

(** [self.flatten(coordinate)]: reads [self.shape] only. *)
Definition flatten (self : t) (coordinate : list Z) : outcome (Z * Z) :=
  match flatten_loop (shape self) coordinate
          (rev (range (length (but_last coordinate)))) 0 1 with
  | Raise e => Raise e
  | Ok (flat_index, _) =>
      match tuple_last coordinate with
      | Raise e => Raise e
      | Ok c => Ok (flat_index, c)
      end
  end.

(** [self.bits()] *)
Definition bits (self : t) : M dense :=
  if (length (shape self) =? 1)%nat then np_array (grid self)
  else
    sz ← get_size (grid self);
    rs ← list_comp (range sz) (fun i =>
           o ← obj_flat_get (grid self) i;
           py_list o);
    tmp ← np_array_rows rs;
    np_reshape tmp (shape self).

End Plane.

(* --------------------------------------------------------------------- *)
(* 8. Notions of the specification                                        *)
(* --------------------------------------------------------------------- *)

(** The row-major linear index of a coordinate [cs] in an array of shape
    [dims], as the specification words it: component [i] weighs the product
    of the dimensions after it. *)
Fixpoint row_major_index (dims : list nat) (cs : list Z) : Z :=
  match cs, dims with
  | c :: cs', _ :: dims' =>
      c * Z.of_nat (prod_dims dims') + row_major_index dims' cs'
  | _, _ => 0
  end.


(** The storage cells of a plane: its one row, or the elements of the
    window its grid is on. *)
Definition cells (p : Plane.t) (w : world) : list (option addr) :=
  match Plane.grid p with
  | Bits a => [Some a]
  | Arr v =>
      match bufs w !! nd_base v with
      | Some buf => take (nd_size v) (drop (nd_offset v) buf)
      | None => []
      end
  | _ => []
  end.

Definition row_at (w : world) (c : option addr) : option bitarray :=
  match c with
  | Some a => rows w !! a
  | None => None
  end.

(** The bit rows in the storage of a plane, in storage order ([None] where
    a cell holds no row). *)
Definition grid_rows (p : Plane.t) (w : world) : list (option bitarray) :=
  row_at w <$> cells p w.

Definition row_ok (n : nat) (r : option bitarray) : bool :=
  match r with
  | Some b => (length b =? n)%nat
  | None => false
  end.

(** Every bit row of the storage has length exactly [N] (invariant 2 of the
    data model). *)
Definition rows_have_width (p : Plane.t) (w : world) : Prop :=
  Forall (fun r => exists b, r = Some b /\ length b = Plane.N p) (grid_rows p w).

(** The window of an array grid lies within its buffer. *)
Definition window_ok (p : Plane.t) (w : world) : bool :=
  match Plane.grid p with
  | Arr v =>
      match bufs w !! nd_base v with
      | Some buf => (nd_offset v + nd_size v <=? length buf)%nat
      | None => false
      end
  | _ => true
  end.

(** The invariants of the data model, as a check on a plane in a store: [N]
    is the last component of the shape; a one-dimensional plane holds one
    row and any other an array of shape [shape[:-1]]; there is a row of
    width [N] in every cell. *)
Definition well_formed (p : Plane.t) (w : world) : bool :=
  (Plane.N p =? Plane.width (Plane.shape p))%nat
  && match Plane.grid p with
     | Bits _ => (length (Plane.shape p) =? 1)%nat
     | Arr v => negb (length (Plane.shape p) =? 1)%nat
                && bool_decide (nd_dims v = but_last (Plane.shape p))
     | _ => false
     end
  && (length (cells p w) =? prod_dims (but_last (Plane.shape p)))%nat
  && forallb (row_ok (Plane.N p)) (grid_rows p w)
  && window_ok p w.

(** The store after [Plane(shape)] built [k] rows of a grid of [sz] rows. *)
Definition init_world (w : world) (n sz k : nat) : world :=
  World (rows w ++ repeat (zeros n) k)
        (bufs w ++ [(Some <$> seq (length (rows w)) k) ++ repeat None (sz - k)])
        (entropy w) (drawn w).

(** Every component of the coordinate [cs] lies in the range Python accepts
    for its dimension; in particular [cs] has no more components than
    [dims]. *)
Definition in_range (dims : list nat) (cs : list Z) : Prop :=
  Forall2 (fun c d => - Z.of_nat d <= c < Z.of_nat d) cs (take (length cs) dims).

(** The offset, in elements, of the cell or sub-array that the coordinate
    [cs] selects in a row-major array of shape [dims]; [None] when a
    component is out of range or there are too many. *)
Fixpoint prefix_pos (dims : list nat) (cs : list Z) : option nat :=
  match cs, dims with
  | [], _ => Some 0%nat
  | _ :: _, [] => None
  | c :: cs', d :: dims' =>
      match norm_index c d, prefix_pos dims' cs' with
      | Some i, Some k => Some (i * prod_dims dims' + k)%nat
      | _, _ => None
      end
  end.

(** Python's reading of a negative subscript: [c] in [-d, 0) stands for
    [c + d]; every other subscript stands for itself. *)
Definition wrap (c : Z) (d : nat) : Z :=
  if (c <? 0) && (- Z.of_nat d <=? c) then c + Z.of_nat d else c.


(** The number a bit row denotes, most significant bit first. *)
Definition bits_value_from (acc : Z) (r : bitarray) : Z :=
  fold_left (fun a (b : bool) => 2 * a + Z.b2z b) r acc.

Definition bits_value (r : bitarray) : Z := bits_value_from 0 r.

(** The bits spelled by [pos_digits]. *)
Fixpoint pos_bits (p : positive) (acc : bitarray) : bitarray :=
  match p with
  | xH => true :: acc
  | xO q => pos_bits q (false :: acc)
  | xI q => pos_bits q (true :: acc)
  end.

(** What a freshly drawn row of width [n] satisfies: exactly [n] bits, that
    denote a value of the half-open range [0, 2^n - 1). *)
Definition drawn_row (n : nat) (r : bitarray) : Prop :=
  length r = n /\ 0 <= bits_value r < 2 ^ Z.of_nat n - 1.

(** The store while [randomize] runs over the window of [v]: [k] cells
    rewritten so far, starting from the store [w0]. *)
Definition randomize_inv (n : nat) (v : ndarray) (w0 : world)
    (k : nat) (w1 : world) : Prop :=
  entropy w1 = entropy w0 /\
  (exists extra, rows w1 = rows w0 ++ extra) /\
  length (bufs w1) = length (bufs w0) /\
  (forall b, b <> nd_base v -> bufs w1 !! b = bufs w0 !! b) /\
  exists buf0 buf1 : list (option addr),
    bufs w0 !! nd_base v = Some buf0 /\
    bufs w1 !! nd_base v = Some buf1 /\
    length buf1 = length buf0 /\
    (forall i, (i < k)%nat ->
       exists (a : addr) (r : bitarray),
         buf1 !! (nd_offset v + i)%nat = Some (Some a) /\
         rows w1 !! a = Some r /\ drawn_row n r) /\
    (forall j, ~ (nd_offset v <= j < nd_offset v + k)%nat ->
       buf1 !! j = buf0 !! j).

(** The row in cell [i] of the storage of a plane (empty where there is
    none). *)
Definition row_of_cell (p : Plane.t) (w : world) (i : nat) : bitarray :=
  match cells p w !! i with
  | Some (Some a) => default [] (rows w !! a)
  | _ => []
  end.

(** The bit rows of the storage, in storage order. *)
Definition storage_rows (p : Plane.t) (w : world) : list bitarray :=
  row_of_cell p w <$> range (length (cells p w)).

(* --------------------------------------------------------------------- *)
(* 8b. Further notions used by the properties beyond the claims           *)
(* --------------------------------------------------------------------- *)

(** A coordinate with one non-negative component below each dimension. *)
Definition in_bounds (dims : list nat) (cs : list Z) : Prop :=
  Forall2 (fun c d => 0 <= c < Z.of_nat d) cs dims.

(** The value that the draw number [i] after the generator state of [w0]
    yields for a grid of width [n], and the row that [randomize] builds
    from it. *)
Definition draw_value (n : nat) (w0 : world) (i : nat) : Z :=
  entropy w0 (drawn w0 + i)%nat mod (2 ^ Z.of_nat n - 1).

Definition draw_row (n : nat) (w0 : world) (i : nat) : bitarray :=
  match bits_of_string (zfill (drop2 (bin (draw_value n w0 i))) n) with
  | Ok r => r
  | Raise _ => []
  end.

(** The store after [randomize] rewrote the first [k] cells of the window
    of [v], starting from the store [w0] in which the buffer of [v] is
    [buf0]. *)
Definition randomized_world (n : nat) (v : ndarray) (w0 : world)
    (buf0 : list (option addr)) (k : nat) : world :=
  World (rows w0 ++ (draw_row n w0 <$> seq 0 k))
        (<[nd_base v := take (nd_offset v) buf0
                        ++ (Some <$> seq (length (rows w0)) k)
                        ++ drop (nd_offset v + k) buf0]> (bufs w0))
        (entropy w0) (drawn w0 + k).

(* --------------------------------------------------------------------- *)
(* 8c. Plane.__getitem__ with a list of integers                          *)
(* --------------------------------------------------------------------- *)

(** [a[xs]] for a list of integers [xs]: numpy's advanced indexing along the
    first dimension. Every element of [xs] is resolved against the first
    dimension before anything is built; the result is a new array whose
    cells are copies of the selected cells, so it shares the rows but not
    the buffer. An array without dimensions takes no subscript. *)
Definition nd_take (v : ndarray) (xs : list Z) : M obj := fun w =>
  match nd_dims v with
  | [] => (Raise IndexError, w)
  | d :: rest =>
      match mapM (fun x => norm_index x d) xs with
      | None => (Raise IndexError, w)
      | Some idxs =>
          match bufs w !! nd_base v with
          | None => (Raise SystemError, w)
          | Some buf =>
              let block i :=
                take (prod_dims rest)
                     (drop (nd_offset v + i * prod_dims rest) buf) in
              (Ok (Arr (NdArray (length (bufs w)) 0 (length xs :: rest))),
               World (rows w) (bufs w ++ [concat (block <$> idxs)])
                     (entropy w) (drawn w))
          end
      end
  end.

(** [o[xs]] for a list of integers; a bitarray has no support for it (the
    comment of lines 75-76). *)
Definition subscript_list (o : obj) (xs : list Z) : M obj :=
  match o with
  | Arr v => nd_take v xs
  | _ => raise TypeError
  end.

(** What [__getitem__] returns for a list: a Python list of values, or a
    new Plane. *)
Inductive list_item :=
| Values (os : list obj)
| Sub (p : Plane.t).

(** [self[index]] for [type(index) is list] (lines 77-79 and 87-91). *)
Definition getitem_list (self : Plane.t) (index : list Z) : M list_item :=
  if (length (Plane.shape self) =? 1)%nat then
    vs ← list_comp index (fun x => subscript (Plane.grid self) (IInt x));
    mret (Values vs)
  else
    tmp ← subscript_list (Plane.grid self) index;
    try_except
      (sh ← get_shape tmp;
       p ← Plane.init (sh ++ [Plane.N self]) (Some tmp);
       mret (Sub p))
      AttributeError
      (p ← Plane.init [Plane.N self] (Some tmp);
       mret (Sub p)).

(* --------------------------------------------------------------------- *)
(* 8d. parser.py and examples/life.py                                     *)
(* --------------------------------------------------------------------- *)

(** Python strings are modelled by [string], read as sequences of the code
    points below 256. *)

(** [c.isnumeric()] for one character: the decimal digits, the superscripts
    two, three and one, and the fractions one quarter, one half and three
    quarters are the numeric code points below 256. *)
Definition isnumeric (c : ascii) : bool :=
  let n := nat_of_ascii c in
  ((48 <=? n) && (n <=? 57) || (n =? 178) || (n =? 179) || (n =? 185)
   || (188 <=? n) && (n <=? 190))%nat.

(** The order of one-character strings: by code point. *)
Definition char_le (a b : ascii) : Prop :=
  (nat_of_ascii a <= nat_of_ascii b)%nat.

#[global] Instance char_le_dec : RelDecision char_le.
Proof. intros a b. unfold char_le. apply _. Defined.

(** [sorted(value)] *)
Definition py_sorted (cs : list ascii) : list ascii := merge_sort char_le cs.

(** [int(c)] for a string of one character: a decimal digit or ValueError. *)
Definition int_of_char (c : ascii) : outcome Z :=
  let n := nat_of_ascii c in
  if ((48 <=? n) && (n <=? 57))%nat then Ok (Z.of_nat (n - 48))
  else Raise ValueError.

(** [list(map(int, s))] *)
Fixpoint ints_of_string (s : string) : outcome (list Z) :=
  match s with
  | EmptyString => Ok []
  | String c s' =>
      match int_of_char c with
      | Raise e => Raise e
      | Ok z =>
          match ints_of_string s' with
          | Raise e => Raise e
          | Ok zs => Ok (z :: zs)
          end
      end
  end.

(** A one-dimensional numpy array of integers: [a[i]] and [a[indices]]. *)
Definition array_get (a : list Z) (i : Z) : outcome Z :=
  match norm_index i (length a) with
  | Some k => match a !! k with Some z => Ok z | None => Raise IndexError end
  | None => Raise IndexError
  end.

Fixpoint array_take (a : list Z) (indices : list Z) : outcome (list Z) :=
  match indices with
  | [] => Ok []
  | i :: rest =>
      match array_get a i with
      | Raise e => Raise e
      | Ok z =>
          match array_take a rest with
          | Raise e => Raise e
          | Ok zs => Ok (z :: zs)
          end
      end
  end.

(** [sum(zs)] *)
Definition py_sum (zs : list Z) : Z := fold_left Z.add zs 0.

(** [t in xs] for a list of integers *)
Definition py_in (t : Z) (xs : list Z) : bool := existsb (Z.eqb t) xs.

Module CAMParser.

(** [self._numasc(value)] *)
Definition _numasc (value : string) : bool :=
  if forallb isnumeric (list_ascii_of_string value) then
    String.eqb (string_of_list_ascii (py_sorted (list_ascii_of_string value)))
               value
  else false.

(** The closure [next_state] that [_mcell] returns, for the digit lists [x]
    and [y]; [f_grid] is a flat array of cell states, [indices] the
    positions of the neighbours in it. [states] is not used. *)
Definition next_state {S : Type} (x y : list Z)
    (f_index : Z) (f_grid : list Z) (indices : list Z) (states : S)
  : outcome Z :=
  match array_take f_grid indices with
  | Raise e => Raise e
  | Ok sel =>
      let total := py_sum sel in
      match array_get f_grid f_index with
      | Raise e => Raise e
      | Ok c =>
          if c =? 0 then Ok (Z.b2z (py_in total y))
          else Ok (Z.b2z (py_in total x))
      end
  end.

(** [self._mcell(x, y)] *)
Definition _mcell {S : Type} (x y : string)
  : outcome (Z -> list Z -> list Z -> S -> outcome Z) :=
  match ints_of_string x with
  | Raise e => Raise e
  | Ok xs =>
      match ints_of_string y with
      | Raise e => Raise e
      | Ok ys => Ok (next_state xs ys)
      end
  end.

End CAMParser.

Module Life.

(** A cell as [game_of_life] uses it: an object with a [value]. *)
Record cell := Cell { value : bool }.

(** [game_of_life(cell, neighbors)]; a neighbour is a pair whose second
    component is ignored. *)
Definition game_of_life {T : Type} (c : cell) (neighbors : list (cell * T))
  : bool :=
  let total := py_sum (map (fun x => Z.b2z (value (fst x))) neighbors) in
  if value c then
    if (total <? 2) || (3 <? total) then false else true
  else if total =? 3 then true
  else false.

End Life.



Definition cell_at (g : list bool) (i : Z) : Life.cell :=
  Life.Cell (default false (g !! Z.to_nat (wrap i (length g)))).

(** The pieces of the copy that a list subscript [xs] makes of an array
    with first dimension [d], remaining dimensions [rest] and buffer [buf]:
    the resolved positions, the block of cells of one position, the store
    with the new buffer, and the plane over it. *)
Definition list_idxs (d : nat) (xs : list Z) : list nat :=
  (fun x => Z.to_nat (wrap x d)) <$> xs.

Definition list_block (vp : ndarray) (rest : list nat)
    (buf : list (option addr)) (i : nat) : list (option addr) :=
  take (prod_dims rest) (drop (nd_offset vp + i * prod_dims rest) buf).

Definition list_world (w : world) (vp : ndarray) (d : nat) (rest : list nat)
    (buf : list (option addr)) (xs : list Z) : world :=
  World (rows w)
        (bufs w ++ [concat (list_block vp rest buf <$> list_idxs d xs)])
        (entropy w) (drawn w).

Definition list_view (p : Plane.t) (w : world) (rest : list nat)
    (xs : list Z) : Plane.t :=
  Plane.Make (Arr (NdArray (length (bufs w)) 0 (length xs :: rest)))
             ((length xs :: rest) ++ [Plane.N p]) (Plane.N p).

(* --------------------------------------------------------------------- *)
(* 9. Basic facts                                                         *)
(* --------------------------------------------------------------------- *)

Lemma bind_ok {A B} (m : M A) (f : A -> M B) w a w' :
  m w = (Ok a, w') -> (m ≫= f) w = f a w'.
Proof. intros H. unfold mbind, M_bind. by rewrite H. Qed.

Lemma bind_raise {A B} (m : M A) (f : A -> M B) w e w' :
  m w = (Raise e, w') -> (m ≫= f) w = (Raise e, w').
Proof. intros H. unfold mbind, M_bind. by rewrite H. Qed.

Lemma ret_run {A} (a : A) w : (mret a : M A) w = (Ok a, w).
Proof. reflexivity. Qed.

Lemma norm_index_Some c d i :
  norm_index c d = Some i ->
  (i < d)%nat /\ - Z.of_nat d <= c < Z.of_nat d /\
  Z.of_nat i = (if c <? 0 then c + Z.of_nat d else c).
Proof.
  unfold norm_index. intros H.
  destruct (c <? - Z.of_nat d) eqn:E1; [done|].
  destruct (Z.of_nat d <=? c) eqn:E2; [done|].
  simpl in H. injection H as <-.
  apply Z.ltb_ge in E1. apply Z.leb_gt in E2.
  destruct (c <? 0) eqn:E3.
  - apply Z.ltb_lt in E3. lia.
  - apply Z.ltb_ge in E3. lia.
Qed.

Lemma norm_index_None c d :
  norm_index c d = None <-> c < - Z.of_nat d \/ Z.of_nat d <= c.
Proof.
  unfold norm_index.
  destruct (c <? - Z.of_nat d) eqn:E1; simpl.
  - apply Z.ltb_lt in E1. intuition.
  - apply Z.ltb_ge in E1. destruct (Z.of_nat d <=? c) eqn:E2.
    + apply Z.leb_le in E2. intuition.
    + apply Z.leb_gt in E2. split; [done|lia].
Qed.

Lemma norm_index_nonneg c d :
  0 <= c < Z.of_nat d -> norm_index c d = Some (Z.to_nat c).
Proof.
  intros H. unfold norm_index.
  destruct (c <? - Z.of_nat d) eqn:E1; [apply Z.ltb_lt in E1; lia|].
  destruct (Z.of_nat d <=? c) eqn:E2; [apply Z.leb_le in E2; lia|].
  simpl. destruct (c <? 0) eqn:E3; [apply Z.ltb_lt in E3; lia|done].
Qed.


Lemma prod_dims_app ds es :
  prod_dims (ds ++ es) = (prod_dims ds * prod_dims es)%nat.
Proof.
  induction ds as [|d ds IH]; simpl; [lia|].
  unfold prod_dims in *. simpl. rewrite IH. lia.
Qed.

Lemma but_last_snoc {A} (l : list A) x : but_last (l ++ [x]) = l.
Proof. apply removelast_last. Qed.


Lemma snoc_but_last {A} (l : list A) :
  l <> [] -> exists x, l = but_last l ++ [x] /\ last l = Some x.
Proof.
  intros H. destruct (exists_last H) as (l' & x & ->).
  exists x. by rewrite but_last_snoc, last_snoc.
Qed.

Lemma length_but_last {A} (l : list A) :
  length (but_last l) = (length l - 1)%nat.
Proof.
  destruct (decide (l = [])) as [->|H]; [done|].
  destruct (snoc_but_last l H) as (x & E & _).
  rewrite E at 2. rewrite length_app. simpl. lia.
Qed.

Lemma lookup_repeat {A} (x : A) k i :
  (i < k)%nat -> repeat x k !! i = Some x.
Proof.
  revert i. induction k as [|k IH]; intros [|i] H; simpl; try lia; [done|].
  apply IH. lia.
Qed.

(* --------------------------------------------------------------------- *)
(* 10. Coordinate flattening                                              *)
(* --------------------------------------------------------------------- *)

Lemma row_major_index_snoc dims cs d c :
  length dims = length cs ->
  row_major_index (dims ++ [d]) (cs ++ [c]) =
  c + Z.of_nat d * row_major_index dims cs.
Proof.
  revert cs. induction dims as [|d0 dims IH]; intros [|c0 cs] Hlen;
    simpl in *; try discriminate.
  - unfold prod_dims. simpl. lia.
  - rewrite IH by lia. rewrite prod_dims_app.
    unfold prod_dims at 2. simpl. lia.
Qed.

Lemma flatten_loop_prefix cs : forall dims rest1 rest2 acc g,
  length dims = length cs ->
  Plane.flatten_loop (dims ++ rest2) (cs ++ rest1)
    (rev (range (length cs))) acc g =
  Ok (acc + g * row_major_index dims cs, g * Z.of_nat (prod_dims dims)).
Proof.
  induction cs as [|c cs IH] using rev_ind; intros dims rest1 rest2 acc g Hlen.
  - destruct dims; [|done]. simpl. unfold prod_dims. simpl. f_equal. f_equal; lia.
  - destruct (decide (dims = [])) as [->|Hne].
    { rewrite length_app in Hlen. simpl in Hlen. lia. }
    destruct (exists_last Hne) as (dims' & d & ->).
    rewrite !length_app in Hlen. simpl in Hlen.
    rewrite length_app. simpl. unfold range.
    replace (length cs + 1)%nat with (S (length cs)) by lia.
    rewrite seq_S, rev_app_distr. simpl.
    unfold tuple_get.
    rewrite <- (assoc_L app cs), <- (assoc_L app dims'). simpl.
    rewrite (list_lookup_middle cs _ c (length cs)) by done.
    rewrite (list_lookup_middle dims' _ d (length cs)) by lia.
    fold (range (length cs)).
    rewrite IH by lia.
    rewrite row_major_index_snoc by lia. rewrite prod_dims_app.
    unfold prod_dims at 3. simpl. f_equal. f_equal; lia.
Qed.

(** [flatten] on a full coordinate: no component is compared with the
    shape. *)
Lemma flatten_full_coordinate (p : Plane.t) (coordinate : list Z) (c : Z) :
  length coordinate = length (Plane.shape p) ->
  last coordinate = Some c ->
  Plane.flatten p coordinate =
    Ok (row_major_index (but_last (Plane.shape p)) (but_last coordinate), c).
Proof.
  intros Hlen Hlast.
  assert (Hc : coordinate <> []) by (intros ->; discriminate).
  assert (Hs : Plane.shape p <> []) by (intros E; rewrite E in Hlen; by destruct coordinate).
  destruct (snoc_but_last _ Hc) as (c' & Ec & Hl).
  destruct (snoc_but_last _ Hs) as (n & Es & _).
  assert (c' = c) as -> by congruence.
  unfold Plane.flatten.
  rewrite Ec at 1. rewrite Es at 1.
  rewrite flatten_loop_prefix.
  - unfold tuple_last. rewrite Hlast. f_equal. f_equal. lia.
  - rewrite !length_but_last. lia.
Qed.

(** C6. For every grid and every full coordinate (as many components as the
    shape has), [flatten] returns the row-major linear index of the outer
    coordinate within an array of shape [shape[:-1]], paired with the last
    component unchanged; the result depends on the shape alone, not on the
    storage. Instances: shape (2,3,4) sends (1,2,0) to (5,0), and a
    one-dimensional grid sends (c,) to (0,c). *)
Theorem flatten_row_major (p : Plane.t) (coordinate : list Z) (c : Z) :
  length coordinate = length (Plane.shape p) ->
  last coordinate = Some c ->
  Plane.flatten p coordinate =
    Ok (row_major_index (but_last (Plane.shape p)) (but_last coordinate), c)
  /\ (forall g, Plane.flatten (Plane.Make g (Plane.shape p) (Plane.N p)) coordinate
                = Plane.flatten p coordinate)
  /\ (length coordinate = 1%nat -> Plane.flatten p coordinate = Ok (0, c)).
Proof.
  intros Hlen Hlast.
  pose proof (flatten_full_coordinate p coordinate c Hlen Hlast) as Hmain.
  split; [done|]. split; [done|].
  intros H1. rewrite Hmain.
  destruct coordinate as [|c0 [|? ?]]; try done.
  simpl. by destruct (but_last (Plane.shape p)).
Qed.

Lemma flatten_row_major_witness :
  length [1; 2; 0] = length [2; 3; 4]%nat /\
  last [1; 2; 0] = Some 0 /\
  Plane.flatten (Plane.Make PyNone [2; 3; 4]%nat 4) [1; 2; 0] = Ok (5, 0).
Proof.
  split; [reflexivity|]. split; [reflexivity|].
  exact (proj1 (flatten_row_major (Plane.Make PyNone [2; 3; 4]%nat 4)
                  [1; 2; 0] 0 eq_refl eq_refl)).
Defined.

Example flatten_one_dimension :
  Plane.flatten (Plane.Make PyNone [8]%nat 8) [3] = Ok (0, 3).
Proof. reflexivity. Qed.

(* --------------------------------------------------------------------- *)
(* 11. Construction                                                       *)
(* --------------------------------------------------------------------- *)

Lemma for_each_seq_closed (body : nat -> M unit) (F : nat -> world) n :
  forall s,
  (forall k, (s <= k < s + n)%nat -> body k (F k) = (Ok tt, F (S k))) ->
  for_each (seq s n) body (F s) = (Ok tt, F (s + n)%nat).
Proof.
  induction n as [|n IH]; intros s H; simpl.
  - by rewrite Nat.add_0_r.
  - erewrite bind_ok by (apply H; lia).
    rewrite IH by (intros; apply H; lia). f_equal. f_equal. lia.
Qed.

Lemma init_step w n dims k :
  (k < prod_dims dims)%nat ->
  (a ← new_bits (zeros n);
   flat_set (NdArray (length (bufs w)) 0 dims) k a)
    (init_world w n (prod_dims dims) k)
  = (Ok tt, init_world w n (prod_dims dims) (S k)).
Proof.
  intros Hk. set (sz := prod_dims dims) in *.
  unfold mbind, M_bind, new_bits, flat_set, nd_size. simpl.
  fold sz. destruct (Nat.ltb_spec k sz) as [_|]; [|lia].
  rewrite list_lookup_middle by done.
  rewrite length_app, length_fmap, length_seq, repeat_length.
  destruct (Nat.ltb_spec k (k + (sz - k))) as [_|]; [|lia].
  unfold init_world. f_equal. f_equal.
  - rewrite <- (assoc_L app). f_equal.
    change (repeat (zeros n) (S k)) with (zeros n :: repeat (zeros n) k).
    by rewrite repeat_cons.
  - rewrite length_app, repeat_length.
    rewrite insert_app_r_alt by lia. rewrite Nat.sub_diag.
    cbn -[seq repeat Nat.sub]. f_equal. f_equal.
    rewrite insert_app_r_alt by (rewrite length_fmap, length_seq; lia).
    rewrite length_fmap, length_seq, Nat.sub_diag.
    rewrite seq_S, fmap_app, <- (assoc_L app). f_equal.
    destruct (sz - k)%nat as [|m] eqn:E; [lia|].
    simpl. replace (sz - S k)%nat with m by lia. done.
Qed.

(** [Plane(shape)] for a shape that is not of length one: a new array of
    shape [shape[:-1]] with a new zero row of width [N] in every cell. *)
Lemma init_default_nd shape w :
  length shape <> 1%nat ->
  Plane.init shape None w =
    (Ok (Plane.Make (Arr (NdArray (length (bufs w)) 0 (but_last shape)))
           shape (Plane.width shape)),
     World (rows w ++ repeat (zeros (Plane.width shape)) (prod_dims (but_last shape)))
           (bufs w ++ [Some <$> seq (length (rows w)) (prod_dims (but_last shape))])
           (entropy w) (drawn w)).
Proof.
  intros H1. unfold Plane.init.
  destruct (Nat.eqb_spec (length shape) 1) as [|_]; [done|].
  set (n := Plane.width shape). set (dims := but_last shape).
  unfold mbind at 1, M_bind at 1, np_empty.
  assert (E0 : World (rows w) (bufs w ++ [repeat None (prod_dims dims)])
                 (entropy w) (drawn w) = init_world w n (prod_dims dims) 0).
  { unfold init_world. simpl. rewrite app_nil_r, Nat.sub_0_r. done. }
  rewrite E0. unfold nd_size, range. simpl nd_dims.
  erewrite bind_ok.
  2:{ apply (for_each_seq_closed _ (init_world w n (prod_dims dims))).
      intros k Hk. apply init_step. lia. }
  simpl. unfold mret, M_ret. f_equal.
  unfold init_world. rewrite Nat.sub_diag. simpl. by rewrite app_nil_r.
Qed.

(** [Plane((n,))]: one new zero row of width [n]. *)
Lemma init_default_1d n w :
  Plane.init [n] None w =
    (Ok (Plane.Make (Bits (length (rows w))) [n] n),
     World (rows w ++ [zeros n]) (bufs w) (entropy w) (drawn w)).
Proof. reflexivity. Qed.

(** [Plane(shape, grid)] stores what it is given. *)
Lemma init_supplied shape g w :
  Plane.init shape (Some g) w = (Ok (Plane.Make g shape (Plane.width shape)), w).
Proof. reflexivity. Qed.

(* --------------------------------------------------------------------- *)
(* 12. Well-formed planes and array indexing                              *)
(* --------------------------------------------------------------------- *)

Lemma row_ok_true n r :
  row_ok n r = true <-> exists b, r = Some b /\ length b = n.
Proof.
  destruct r as [b|]; simpl.
  - rewrite Nat.eqb_eq. split; [eauto|]. by intros (? & [= <-] & ?).
  - split; [done|]. by intros (? & ? & ?).
Qed.

Lemma well_formed_inv p w :
  well_formed p w = true ->
  Plane.N p = Plane.width (Plane.shape p) /\
  length (cells p w) = prod_dims (but_last (Plane.shape p)) /\
  rows_have_width p w /\
  match Plane.grid p with
  | Bits _ => length (Plane.shape p) = 1%nat
  | Arr v => length (Plane.shape p) <> 1%nat /\
             nd_dims v = but_last (Plane.shape p)
  | _ => False
  end.
Proof.
  unfold well_formed. rewrite !andb_true_iff.
  intros [[[[H1 H2] H3] H4] _].
  apply Nat.eqb_eq in H1, H3.
  split; [done|]. split; [done|]. split.
  - unfold rows_have_width. rewrite Forall_forall. intros r Hr.
    apply row_ok_true. rewrite forallb_forall in H4. apply H4.
    by apply list_elem_of_In.
  - destruct (Plane.grid p); try done.
    + by apply Nat.eqb_eq in H2.
    + apply andb_true_iff in H2 as [H2 H5].
      apply negb_true_iff, Nat.eqb_neq in H2.
      by apply bool_decide_eq_true in H5.
Qed.

Lemma well_formed_intro p w :
  Plane.N p = Plane.width (Plane.shape p) ->
  length (cells p w) = prod_dims (but_last (Plane.shape p)) ->
  rows_have_width p w ->
  match Plane.grid p with
  | Bits _ => length (Plane.shape p) = 1%nat
  | Arr v => length (Plane.shape p) <> 1%nat /\
             nd_dims v = but_last (Plane.shape p)
  | _ => False
  end ->
  window_ok p w = true ->
  well_formed p w = true.
Proof.
  intros H1 H3 H4 H2 H5. unfold well_formed. rewrite !andb_true_iff.
  split; [|done]. repeat split.
  - by apply Nat.eqb_eq.
  - destruct (Plane.grid p); try done.
    + by apply Nat.eqb_eq.
    + destruct H2 as [H2 H6]. apply andb_true_iff. split.
      * by apply negb_true_iff, Nat.eqb_neq.
      * by apply bool_decide_eq_true.
  - by apply Nat.eqb_eq.
  - apply forallb_forall. intros r Hr. apply row_ok_true.
    unfold rows_have_width in H4. rewrite Forall_forall in H4.
    apply H4. by apply list_elem_of_In.
Qed.

Lemma well_formed_window p w v :
  well_formed p w = true -> Plane.grid p = Arr v ->
  exists buf : list (option addr),
    bufs w !! nd_base v = Some buf /\
    (nd_offset v + nd_size v <= length buf)%nat.
Proof.
  unfold well_formed, window_ok. rewrite !andb_true_iff.
  intros [_ H] Hg. rewrite Hg in H.
  destruct (bufs w !! nd_base v) as [buf|]; [|done].
  exists buf. split; [done|]. by apply Nat.leb_le.
Qed.

(** In a well-formed plane over an array, every cell of the window holds a
    row of width [N]. *)
Lemma well_formed_cell p w v i :
  well_formed p w = true -> Plane.grid p = Arr v -> (i < nd_size v)%nat ->
  exists (buf : list (option addr)) (a : addr) (r : bitarray),
    bufs w !! nd_base v = Some buf /\
    buf !! (nd_offset v + i)%nat = Some (Some a) /\
    cells p w !! i = Some (Some a) /\
    rows w !! a = Some r /\ length r = Plane.N p.
Proof.
  intros Hwf Hg Hi.
  destruct (well_formed_inv _ _ Hwf) as (_ & Hlen & Hrows & Hsh).
  rewrite Hg in Hsh. destruct Hsh as [_ Hd].
  assert (Hsz : length (cells p w) = nd_size v).
  { rewrite Hlen. unfold nd_size. by rewrite Hd. }
  destruct (lookup_lt_is_Some_2 (cells p w) i) as [c Hc]; [lia|].
  unfold rows_have_width, grid_rows in Hrows.
  rewrite Forall_fmap, Forall_lookup in Hrows.
  destruct (Hrows _ _ Hc) as (r & Hr & Hlr).
  destruct c as [a|]; [|done]. simpl in Hr.
  unfold cells in Hc. rewrite Hg in Hc.
  destruct (bufs w !! nd_base v) as [buf|] eqn:Hb; [|done].
  exists buf, a, r. split; [done|].
  assert (Hc' := Hc).
  rewrite lookup_take_lt, lookup_drop in Hc by lia.
  repeat split; try done.
  unfold cells. by rewrite Hg, Hb.
Qed.

Lemma in_range_length dims cs : in_range dims cs -> (length cs <= length dims)%nat.
Proof.
  intros H. apply Forall2_length in H. rewrite length_take in H. lia.
Qed.

Lemma in_range_cons d dims c cs :
  in_range (d :: dims) (c :: cs) <->
  - Z.of_nat d <= c < Z.of_nat d /\ in_range dims cs.
Proof.
  unfold in_range. simpl. split.
  - intros H. by inversion H.
  - intros [H1 H2]. by constructor.
Qed.

Lemma in_range_prefix_pos dims : forall cs,
  in_range dims cs ->
  exists k, prefix_pos dims cs = Some k /\
            (k + prod_dims (drop (length cs) dims) <= prod_dims dims)%nat.
Proof.
  induction dims as [|d dims IH]; intros [|c cs] H.
  - exists 0%nat. split; [done|]. simpl. lia.
  - apply in_range_length in H. simpl in H. lia.
  - exists 0%nat. split; [done|]. simpl. lia.
  - apply in_range_cons in H as [Hc H].
    destruct (IH _ H) as (k & Hk & Hb).
    simpl prefix_pos. rewrite Hk.
    destruct (norm_index c d) as [i|] eqn:Hi.
    2:{ apply norm_index_None in Hi. lia. }
    apply norm_index_Some in Hi as (Hi & _).
    exists (i * prod_dims dims + k)%nat.
    split; [done|]. change (prod_dims (d :: dims)) with (d * prod_dims dims)%nat.
    simpl in *. nia.
Qed.

Lemma prefix_pos_in_range dims : forall cs k,
  prefix_pos dims cs = Some k -> in_range dims cs.
Proof.
  induction dims as [|d dims IH]; intros [|c cs] k H; simpl in H; try done.
  - constructor.
  - constructor.
  - destruct (norm_index c d) as [i|] eqn:Hi; [|done].
    destruct (prefix_pos dims cs) as [k'|] eqn:Hk; [|done].
    apply in_range_cons. split; [|by eapply IH].
    apply norm_index_Some in Hi. lia.
Qed.

Lemma nd_walk_out_of_range base dims : forall off cs w,
  prefix_pos dims cs = None ->
  nd_walk base off dims cs w = (Raise IndexError, w).
Proof.
  induction dims as [|d dims IH]; intros off [|c cs] w H; simpl in H; try done.
  simpl. destruct (norm_index c d) as [i|]; [|done].
  destruct (prefix_pos dims cs) eqn:Hk; [done|]. by apply IH.
Qed.

Lemma nd_walk_partial base dims : forall off cs k w,
  (length cs < length dims)%nat ->
  prefix_pos dims cs = Some k ->
  nd_walk base off dims cs w =
    (Ok (Arr (NdArray base (off + k) (drop (length cs) dims))), w).
Proof.
  induction dims as [|d dims IH]; intros off [|c cs] k w Hlen H;
    simpl in *; try lia.
  - injection H as <-. by rewrite Nat.add_0_r.
  - destruct (norm_index c d) as [i|]; [|done].
    destruct (prefix_pos dims cs) as [k'|] eqn:Hk; [|done].
    injection H as <-. rewrite (IH _ _ k') by (done || lia).
    do 4 f_equal. lia.
Qed.

Lemma nd_walk_full base dims : forall off cs k w,
  length cs = length dims ->
  prefix_pos dims cs = Some k ->
  nd_walk base off dims cs w = nd_elem (NdArray base off []) (off + k) w.
Proof.
  induction dims as [|d dims IH]; intros off [|c cs] k w Hlen H;
    simpl in *; try done.
  - injection H as <-. by rewrite Nat.add_0_r.
  - destruct (norm_index c d) as [i|]; [|done].
    destruct (prefix_pos dims cs) as [k'|] eqn:Hk; [|done].
    injection H as <-. rewrite (IH _ _ k') by (done || lia).
    unfold nd_elem. simpl. by rewrite Nat.add_assoc.
Qed.


(* --------------------------------------------------------------------- *)
(* 13. Indexing a plane                                                   *)
(* --------------------------------------------------------------------- *)

Lemma width_snoc ds n : Plane.width (ds ++ [n]) = n.
Proof.
  unfold Plane.width. rewrite length_app, last_snoc. simpl.
  by destruct (Nat.eqb_spec (length ds + 1) 0); [lia|].
Qed.

Lemma in_range_full_snoc ds n cs c :
  length cs = length ds ->
  in_range (ds ++ [n]) (cs ++ [c]) <->
  in_range ds cs /\ - Z.of_nat n <= c < Z.of_nat n.
Proof.
  intros Hlen. unfold in_range.
  rewrite length_app. simpl.
  rewrite take_ge by (rewrite length_app; simpl; lia).
  rewrite (take_ge ds) by lia.
  split.
  - intros H. apply Forall2_app_inv in H; [|done].
    destruct H as [H1 H2]. split; [done|]. by inversion H2.
  - intros [H1 H2]. apply Forall2_app; [done|].
    apply List.Forall2_cons; [done|apply List.Forall2_nil].
Qed.

(** Reading a bit of a row through its bitarray object. *)
Lemma subscript_bits (a : addr) c (r : bitarray) j w :
  rows w !! a = Some r -> norm_index c (length r) = Some j ->
  exists b, r !! j = Some b /\
            subscript (Bits a) (IInt c) w = (Ok (Bit b), w).
Proof.
  intros Hr Hj.
  destruct (norm_index_Some _ _ _ Hj) as (Hlt & _).
  destruct (lookup_lt_is_Some_2 r j Hlt) as [b Hb].
  exists b. split; [done|].
  unfold subscript. erewrite bind_ok by (unfold deref; by rewrite Hr).
  by rewrite Hj, Hb.
Qed.

Lemma subscript_bits_out_of_range (a : addr) c (r : bitarray) w :
  rows w !! a = Some r -> norm_index c (length r) = None ->
  subscript (Bits a) (IInt c) w = (Raise IndexError, w).
Proof.
  intros Hr Hj.
  unfold subscript. erewrite bind_ok by (unfold deref; by rewrite Hr).
  by rewrite Hj.
Qed.

(** A full coordinate on a plane over an array: the outer components
    select the cell at their row-major offset, the last component a bit of
    the row in that cell. *)
Lemma getitem_full p w v cs c k j :
  well_formed p w = true -> Plane.grid p = Arr v ->
  length cs = length (Plane.shape p) ->
  prefix_pos (but_last (Plane.shape p)) (but_last cs) = Some k ->
  last cs = Some c ->
  norm_index c (Plane.N p) = Some j ->
  exists (a : addr) (r : bitarray) b,
    cells p w !! k = Some (Some a) /\ rows w !! a = Some r /\
    length r = Plane.N p /\ r !! j = Some b /\
    Plane.getitem p (ITuple cs) w = (Ok (Plane.Value (Bit b)), w).
Proof.
  intros Hwf Hg Hlen Hk Hc Hj.
  destruct (well_formed_inv _ _ Hwf) as (_ & _ & _ & Hsh).
  rewrite Hg in Hsh. destruct Hsh as [_ Hd].
  assert (Hin : in_range (but_last (Plane.shape p)) (but_last cs))
    by (by eapply prefix_pos_in_range).
  destruct (in_range_prefix_pos _ _ Hin) as (k' & Hk' & Hb).
  assert (k' = k) as -> by congruence.
  assert (Hl : length (but_last cs) = length (but_last (Plane.shape p)))
    by (rewrite !length_but_last; lia).
  rewrite Hl, drop_all in Hb. change (prod_dims []) with 1%nat in Hb.
  destruct (well_formed_cell p w v k Hwf Hg) as (buf & a & r & Hbuf & Hcell & Hcs & Hr & Hlr).
  { unfold nd_size. rewrite Hd. lia. }
  rewrite <- Hlr in Hj.
  destruct (subscript_bits a c r j w Hr Hj) as (b & Hbit & Hsub).
  exists a, r, b. repeat split; try done.
  unfold Plane.getitem. rewrite Hlen, Nat.eqb_refl.
  erewrite bind_ok.
  2:{ rewrite Hg. unfold subscript, nd_index. rewrite Hd.
      rewrite (nd_walk_full _ _ _ _ k) by done.
      unfold nd_elem. simpl. by rewrite Hbuf, Hcell. }
  erewrite bind_ok by (unfold lift, tuple_last; by rewrite Hc).
  erewrite bind_ok by exact Hsub. done.
Qed.

(** A tuple that stops short of the last outer dimension selects a
    sub-array: the view is a window on the same buffer. *)
Lemma getitem_partial p w v cs k :
  Plane.grid p = Arr v -> nd_dims v = but_last (Plane.shape p) ->
  Plane.shape p <> [] ->
  (length cs + 1 < length (Plane.shape p))%nat ->
  prefix_pos (but_last (Plane.shape p)) cs = Some k ->
  Plane.getitem p (ITuple cs) w =
    (Ok (Plane.View
           (Plane.Make
              (Arr (NdArray (nd_base v) (nd_offset v + k)
                      (drop (length cs) (but_last (Plane.shape p)))))
              (drop (length cs) (but_last (Plane.shape p)) ++ [Plane.N p])
              (Plane.N p))), w).
Proof.
  intros Hg Hd Hne Hlen Hk.
  unfold Plane.getitem.
  destruct (Nat.eqb_spec (length cs) (length (Plane.shape p))) as [|_]; [lia|].
  erewrite bind_ok.
  2:{ rewrite Hg. unfold subscript, nd_index. rewrite Hd.
      apply (nd_walk_partial _ _ _ _ k); [|done].
      rewrite length_but_last. lia. }
  simpl. unfold mbind, M_bind, mret, M_ret. simpl.
  by rewrite width_snoc.
Qed.

(** A tuple with one component for every outer dimension selects a cell:
    the bitarray in it has no [shape], and the tuple branch does not catch
    the AttributeError. *)
Lemma getitem_row_tuple p w v cs :
  well_formed p w = true -> Plane.grid p = Arr v ->
  (length cs + 1 = length (Plane.shape p))%nat ->
  in_range (but_last (Plane.shape p)) cs ->
  Plane.getitem p (ITuple cs) w = (Raise AttributeError, w).
Proof.
  intros Hwf Hg Hlen Hin.
  destruct (well_formed_inv _ _ Hwf) as (_ & _ & _ & Hsh).
  rewrite Hg in Hsh. destruct Hsh as [_ Hd].
  destruct (in_range_prefix_pos _ _ Hin) as (k & Hk & Hb).
  assert (Hl : length cs = length (but_last (Plane.shape p)))
    by (rewrite length_but_last; lia).
  rewrite Hl, drop_all in Hb. change (prod_dims []) with 1%nat in Hb.
  destruct (well_formed_cell p w v k Hwf Hg) as (buf & a & r & Hbuf & Hcell & _).
  { unfold nd_size. rewrite Hd. lia. }
  unfold Plane.getitem.
  destruct (Nat.eqb_spec (length cs) (length (Plane.shape p))) as [|_]; [lia|].
  erewrite bind_ok.
  2:{ rewrite Hg. unfold subscript, nd_index. rewrite Hd.
      rewrite (nd_walk_full _ _ _ _ k) by done.
      unfold nd_elem. simpl. by rewrite Hbuf, Hcell. }
  done.
Qed.

(** The integer subscript does catch it and wraps the row in a
    one-dimensional view. *)
Lemma getitem_row_int p w v c :
  well_formed p w = true -> Plane.grid p = Arr v ->
  length (Plane.shape p) = 2%nat ->
  in_range (but_last (Plane.shape p)) [c] ->
  exists a, cells p w !! Z.to_nat (if c <? 0 then c + Z.of_nat (prod_dims (but_last (Plane.shape p))) else c)
              = Some (Some a) /\
    Plane.getitem p (IInt c) w =
      (Ok (Plane.View (Plane.Make (Bits a) [Plane.N p] (Plane.N p))), w).
Proof.
  intros Hwf Hg Hlen Hin.
  destruct (well_formed_inv _ _ Hwf) as (_ & _ & _ & Hsh).
  rewrite Hg in Hsh. destruct Hsh as [_ Hd].
  destruct (Plane.shape p) as [|d [|n [|? ?]]] eqn:Es; try done.
  simpl in Hd, Hin.
  apply in_range_cons in Hin as [Hc _].
  destruct (norm_index c d) as [i|] eqn:Hi.
  2:{ apply norm_index_None in Hi. lia. }
  destruct (norm_index_Some _ _ _ Hi) as (Hlt & _ & Hval).
  destruct (well_formed_cell p w v i Hwf Hg) as (buf & a & r & Hbuf & Hcell & Hcs & _).
  { unfold nd_size. rewrite Hd. unfold prod_dims. simpl. lia. }
  exists a. split.
  { change (but_last [d; n]) with [d]. change (prod_dims [d]) with (d * 1)%nat.
    rewrite Nat.mul_1_r, <- Hval, Nat2Z.id. done. }
  unfold Plane.getitem. rewrite Es.
  change (length [d; n] =? 1)%nat with false. cbv iota.
  erewrite bind_ok.
  2:{ rewrite Hg. unfold subscript, nd_index. rewrite Hd. simpl.
      rewrite Hi. unfold nd_elem. simpl.
      rewrite Nat.mul_1_r. by rewrite Hbuf, Hcell. }
  unfold try_except. simpl. unfold Plane.width. simpl.
  destruct (Plane.N p); done.
Qed.

(* --------------------------------------------------------------------- *)
(* 14. Constructed planes and their views are well formed                 *)
(* --------------------------------------------------------------------- *)

Lemma lookup_rows_fresh (rs : list bitarray) (x : bitarray) k i :
  (i < k)%nat -> (rs ++ repeat x k) !! (length rs + i)%nat = Some x.
Proof.
  intros Hi. rewrite lookup_app_r by lia.
  replace (length rs + i - length rs)%nat with i by lia.
  by apply lookup_repeat.
Qed.

(** [Plane(shape)] always completes, and the plane it builds satisfies the
    invariants of the data model. *)
Lemma init_default_well_formed shape w :
  exists p w',
    Plane.init shape None w = (Ok p, w') /\
    Plane.shape p = shape /\ Plane.N p = Plane.width shape /\
    well_formed p w' = true.
Proof.
  destruct (decide (length shape = 1%nat)) as [H1|H1].
  - destruct shape as [|n [|? ?]]; try done.
    eexists _, _. split; [apply init_default_1d|].
    split; [done|]. split; [done|].
    apply well_formed_intro; try done.
    unfold rows_have_width, grid_rows, cells. simpl.
    constructor; [|constructor].
    exists (zeros n). rewrite list_lookup_middle by done.
    split; [done|]. apply repeat_length.
  - eexists _, _. split; [by apply init_default_nd|].
    split; [done|]. split; [done|].
    set (sz := prod_dims (but_last shape)).
    set (p := Plane.Make _ _ _). set (w' := World _ _ _ _).
    assert (Hcells : cells p w' = Some <$> seq (length (rows w)) sz).
    { unfold cells. simpl.
      rewrite list_lookup_middle by done.
      rewrite drop_0. apply take_ge.
      rewrite length_fmap, length_seq. unfold nd_size. simpl. fold sz. lia. }
    apply well_formed_intro; simpl; try done.
    + rewrite Hcells, length_fmap, length_seq. done.
    + unfold rows_have_width, grid_rows. rewrite Hcells.
      rewrite <- list_fmap_compose. apply Forall_fmap, Forall_forall.
      intros a Ha. apply elem_of_seq in Ha.
      exists (zeros (Plane.width shape)). simpl.
      replace a with (length (rows w) + (a - length (rows w)))%nat by lia.
      rewrite lookup_rows_fresh by (fold sz; lia).
      split; [done|]. apply repeat_length.
    + unfold window_ok. simpl. rewrite list_lookup_middle by done.
      apply Nat.leb_le. rewrite length_fmap, length_seq.
      unfold nd_size. simpl. fold sz. lia.
Qed.

(** The view of a well-formed plane over a sub-array is well formed in the
    same store. *)
Lemma view_well_formed p w v cs k :
  well_formed p w = true -> Plane.grid p = Arr v ->
  (length cs + 1 < length (Plane.shape p))%nat ->
  prefix_pos (but_last (Plane.shape p)) cs = Some k ->
  well_formed
    (Plane.Make
       (Arr (NdArray (nd_base v) (nd_offset v + k)
               (drop (length cs) (but_last (Plane.shape p)))))
       (drop (length cs) (but_last (Plane.shape p)) ++ [Plane.N p])
       (Plane.N p)) w = true.
Proof.
  intros Hwf Hg Hlen Hk.
  destruct (well_formed_inv _ _ Hwf) as (HN & _ & _ & Hsh).
  rewrite Hg in Hsh. destruct Hsh as [_ Hd].
  set (dims := but_last (Plane.shape p)) in *.
  set (sub := drop (length cs) dims).
  assert (Hin : in_range dims cs) by (by eapply prefix_pos_in_range).
  destruct (in_range_prefix_pos _ _ Hin) as (k' & Hk' & Hb).
  assert (k' = k) as -> by congruence. fold sub in Hb.
  assert (Hcell : forall i, (i < prod_dims sub)%nat ->
    exists buf a r, bufs w !! nd_base v = Some buf /\
      buf !! (nd_offset v + k + i)%nat = Some (Some a) /\
      rows w !! a = Some r /\ length r = Plane.N p).
  { intros i Hi.
    destruct (well_formed_cell p w v (k + i) Hwf Hg) as (buf & a & r & H1 & H2 & _ & H3 & H4).
    { unfold nd_size. rewrite Hd. lia. }
    exists buf, a, r. rewrite <- Nat.add_assoc. done. }
  assert (Hne : length sub <> 0%nat).
  { unfold sub. rewrite length_drop. unfold dims. rewrite length_but_last. lia. }
  apply well_formed_intro; simpl.
  - by rewrite width_snoc.
  - rewrite but_last_snoc. unfold cells. simpl. unfold nd_size. simpl.
    destruct (decide (prod_dims sub = 0%nat)) as [E|E].
    + rewrite E. by destruct (bufs w !! nd_base v).
    + destruct (Hcell (prod_dims sub - 1)%nat) as (buf & a & r & H1 & H2 & _); [lia|].
      rewrite H1. apply lookup_lt_Some in H2.
      rewrite length_take, length_drop. lia.
  - unfold rows_have_width, grid_rows, cells. simpl. unfold nd_size. simpl.
    destruct (bufs w !! nd_base v) as [buf|] eqn:Hbuf; [|constructor].
    rewrite Forall_fmap, Forall_lookup. intros i c Hc.
    assert (Hi : (i < prod_dims sub)%nat).
    { apply lookup_lt_Some in Hc. rewrite length_take in Hc. lia. }
    rewrite lookup_take_lt, lookup_drop in Hc by done.
    destruct (Hcell i Hi) as (buf' & a & r & H1 & H2 & H3 & H4).
    assert (buf' = buf) as -> by congruence.
    simpl. exists r. split; [|done].
    assert (c = Some a) as -> by congruence. done.
  - rewrite length_app. simpl. split; [lia|]. by rewrite but_last_snoc.
  - unfold window_ok. simpl.
    destruct (well_formed_window p w v Hwf Hg) as (buf & Hbuf & Hfit).
    rewrite Hbuf. apply Nat.leb_le. unfold nd_size in *. simpl.
    rewrite Hd in Hfit. lia.
Qed.

(* --------------------------------------------------------------------- *)
(* 15. Full and partial tuple coordinates                                 *)
(* --------------------------------------------------------------------- *)

(** On a plane over an array (any shape of length two or more), a full
    coordinate in range yields one bit. *)
Lemma getitem_full_bit p w cs :
  well_formed p w = true ->
  (2 <= length (Plane.shape p))%nat ->
  length cs = length (Plane.shape p) ->
  in_range (Plane.shape p) cs ->
  exists b, Plane.getitem p (ITuple cs) w = (Ok (Plane.Value (Bit b)), w).
Proof.
  intros Hwf H2 Hlen Hin.
  destruct (well_formed_inv _ _ Hwf) as (HN & _ & _ & Hsh).
  destruct (Plane.grid p) as [| |a|v] eqn:Hg; try done; [lia|].
  assert (Hs : Plane.shape p <> []) by (intros E; rewrite E in H2; simpl in H2; lia).
  assert (Hc : cs <> []) by (intros E; rewrite E in Hlen; simpl in Hlen; lia).
  destruct (snoc_but_last _ Hs) as (n & Es & Hln).
  destruct (snoc_but_last _ Hc) as (c & Ec & Hlc).
  rewrite Es, Ec in Hin.
  apply in_range_full_snoc in Hin; [|rewrite !length_but_last; lia].
  destruct Hin as [Hin Hcn].
  destruct (in_range_prefix_pos _ _ Hin) as (k & Hk & _).
  assert (En : Plane.N p = n).
  { rewrite HN, Es. apply width_snoc. }
  destruct (norm_index c (Plane.N p)) as [j|] eqn:Hj.
  2:{ apply norm_index_None in Hj. lia. }
  destruct (getitem_full p w v cs c k j Hwf Hg Hlen Hk Hlc Hj)
    as (a & r & b & _ & _ & _ & _ & H).
  by exists b.
Qed.

(** On a plane whose storage is a bitarray, every tuple subscript reaches
    the bitarray as a tuple, which bitarray refuses. *)
Lemma getitem_tuple_on_bits p a cs w :
  Plane.grid p = Bits a ->
  Plane.getitem p (ITuple cs) w = (Raise TypeError, w).
Proof.
  intros Hg. unfold Plane.getitem. rewrite Hg.
  by destruct (length cs =? length (Plane.shape p))%nat.
Qed.

(** C1 (the code departs from the claim). A one-dimensional grid indexed by
    a one-element tuple does not yield a bit: [Plane((n,))[(c,)]] hands the
    empty tuple [index[:-1]] to the bitarray and raises TypeError, for every
    width [n] and every component [c]. *)
Theorem getitem_tuple_one_dimension (n : nat) (c : Z) (w : world) :
  (p ← Plane.init [n] None; Plane.getitem p (ITuple [c])) w
  = (Raise TypeError,
     World (rows w ++ [zeros n]) (bufs w) (entropy w) (drawn w)).
Proof. reflexivity. Qed.

(** C2 (the code departs from the claim). For shape (3,3,4), [get((1,))] is
    a view of shape (3,4) on the parent's buffer, but indexing that view
    with (2,), like indexing the parent with (1,2), selects a bitarray, whose
    missing [shape] attribute raises AttributeError instead of giving a view
    of shape (4,). *)
Theorem getitem_partial_last_outer_dimension (w : world) :
  exists p w1 v,
    Plane.init [3; 3; 4]%nat None w = (Ok p, w1) /\
    Plane.getitem p (ITuple [1]) w1 = (Ok (Plane.View v), w1) /\
    Plane.shape v = [3; 4]%nat /\
    (exists vp vv, Plane.grid p = Arr vp /\ Plane.grid v = Arr vv /\
                   nd_base vv = nd_base vp) /\
    Plane.getitem v (ITuple [2]) w1 = (Raise AttributeError, w1) /\
    Plane.getitem p (ITuple [1; 2]) w1 = (Raise AttributeError, w1).
Proof.
  destruct (init_default_well_formed [3; 3; 4]%nat w)
    as (p & w1 & Hinit & Hs & HN & Hwf).
  destruct (well_formed_inv _ _ Hwf) as (_ & _ & _ & Hsh).
  destruct (Plane.grid p) as [| |a|vp] eqn:Hg; try done.
  { rewrite Hs in Hsh. done. }
  destruct Hsh as [_ Hd].
  assert (Hk : prefix_pos (but_last (Plane.shape p)) [1] = Some 3%nat)
    by (by rewrite Hs).
  pose proof (getitem_partial p w1 vp [1] 3%nat Hg Hd) as Hget.
  pose proof (view_well_formed p w1 vp [1] 3%nat Hwf Hg) as Hvwf.
  rewrite Hs, HN in *. simpl in Hget, Hvwf.
  specialize (Hget ltac:(done) ltac:(lia) eq_refl).
  specialize (Hvwf ltac:(lia) eq_refl).
  eexists p, w1, _. split; [done|]. split; [exact Hget|].
  split; [done|]. split; [by eexists _, _|]. split.
  - eapply getitem_row_tuple; [exact Hvwf|done|done|].
    simpl. repeat constructor; lia.
  - eapply getitem_row_tuple; [exact Hwf|done|by rewrite Hs|].
    rewrite Hs. simpl. unfold in_range. simpl.
    apply List.Forall2_cons; [lia|]. apply List.Forall2_cons; [lia|].
    apply List.Forall2_nil.
Qed.



(* --------------------------------------------------------------------- *)
(* 16. Subscripts out of range, and negative subscripts                   *)
(* --------------------------------------------------------------------- *)








Lemma subscript_arr_tuple v cs :
  subscript (Arr v) (ITuple cs) = nd_walk (nd_base v) (nd_offset v) (nd_dims v) cs.
Proof. reflexivity. Qed.

Section ArrayPlane.
Variables (p : Plane.t) (w : world) (v : ndarray).
Hypothesis Hwf : well_formed p w = true.
Hypothesis Hg : Plane.grid p = Arr v.
Hypothesis Hne : Plane.shape p <> [].

Lemma array_plane_dims : nd_dims v = but_last (Plane.shape p).
Proof.
  destruct (well_formed_inv _ _ Hwf) as (_ & _ & _ & Hsh).
  rewrite Hg in Hsh. tauto.
Qed.

Lemma array_plane_shape :
  Plane.shape p = but_last (Plane.shape p) ++ [Plane.N p].
Proof.
  destruct (well_formed_inv _ _ Hwf) as (HN & _).
  destruct (snoc_but_last _ Hne) as (n & Es & _).
  rewrite Es at 1. f_equal. f_equal.
  rewrite HN, Es. by rewrite width_snoc.
Qed.




End ArrayPlane.





(* --------------------------------------------------------------------- *)
(* 17. bin, zfill and bitarray(str): the row drawn for a value            *)
(* --------------------------------------------------------------------- *)

Lemma substring_all s : String.substring 0 (String.length s) s = s.
Proof. induction s as [|c s IH]; simpl; [done|]. by rewrite IH. Qed.

Lemma drop2_bin_pos p : drop2 (bin (Z.pos p)) = pos_digits p EmptyString.
Proof.
  unfold drop2, bin. simpl. rewrite Nat.sub_0_r. apply substring_all.
Qed.

Lemma string_length_app s t :
  String.length (s ++ t) = (String.length s + String.length t)%nat.
Proof. induction s as [|c s IH]; simpl; [done|]. by rewrite IH. Qed.

Lemma pos_digits_length p : forall acc,
  String.length (pos_digits p acc) = (Pos.size_nat p + String.length acc)%nat.
Proof.
  induction p as [q IH|q IH|]; intros acc; simpl; [| |done];
    rewrite IH; simpl; lia.
Qed.

Lemma pos_bits_length p : forall acc,
  length (pos_bits p acc) = (Pos.size_nat p + length acc)%nat.
Proof.
  induction p as [q IH|q IH|]; intros acc; simpl; [| |done];
    rewrite IH; simpl; lia.
Qed.

Lemma pos_digits_head p : forall acc,
  exists t, pos_digits p acc = String "1" t.
Proof.
  induction p as [q IH|q IH|]; intros acc; simpl; eauto.
Qed.

Lemma bits_of_pos_digits p : forall s b,
  bits_of_string s = Ok b ->
  bits_of_string (pos_digits p s) = Ok (pos_bits p b).
Proof.
  induction p as [q IH|q IH|]; intros s b H; simpl.
  - apply IH. simpl. by rewrite H.
  - apply IH. simpl. by rewrite H.
  - by rewrite H.
Qed.

Lemma bits_of_padding k : forall s b,
  bits_of_string s = Ok b ->
  bits_of_string (string_repeat "0" k ++ s) = Ok (repeat false k ++ b).
Proof.
  induction k as [|k IH]; intros s b H; simpl; [done|].
  by rewrite (IH _ _ H).
Qed.

Lemma size_nat_bound p : forall n,
  Z.pos p < 2 ^ Z.of_nat n -> (Pos.size_nat p <= n)%nat.
Proof.
  induction p as [q IH|q IH|]; intros [|n] H; simpl in *; try lia.
  - rewrite Nat2Z.inj_succ, Z.pow_succ_r in H by lia.
    specialize (IH n). lia.
  - rewrite Nat2Z.inj_succ, Z.pow_succ_r in H by lia.
    specialize (IH n). lia.
Qed.

Lemma bits_value_from_app a r s :
  bits_value_from a (r ++ s) = bits_value_from (bits_value_from a r) s.
Proof. unfold bits_value_from. apply fold_left_app. Qed.

Lemma bits_value_from_zeros k : forall a,
  bits_value_from a (repeat false k) = a * 2 ^ Z.of_nat k.
Proof.
  induction k as [|k IH]; intros a.
  - simpl. lia.
  - change (repeat false (S k)) with (false :: repeat false k).
    unfold bits_value_from in *. simpl fold_left. rewrite IH.
    rewrite Nat2Z.inj_succ, Z.pow_succ_r by lia. simpl. lia.
Qed.


Lemma bits_value_from_pos p : forall a acc,
  bits_value_from a (pos_bits p acc)
  = bits_value_from (a * 2 ^ Z.of_nat (Pos.size_nat p) + Z.pos p) acc.
Proof.
  induction p as [q IH|q IH|]; intros a acc; simpl pos_bits; simpl Pos.size_nat.
  - rewrite IH. unfold bits_value_from. simpl fold_left. f_equal.
    rewrite Nat2Z.inj_succ, Z.pow_succ_r by lia. simpl Z.b2z. lia.
  - rewrite IH. unfold bits_value_from. simpl fold_left. f_equal.
    rewrite Nat2Z.inj_succ, Z.pow_succ_r by lia. simpl Z.b2z. lia.
  - unfold bits_value_from. simpl fold_left. f_equal. simpl. lia.
Qed.

(** [bitarray(bin(v)[2:].zfill(n))] is a row of exactly [n] bits that
    denotes [v], for every [v] of [0, 2^n) and [n >= 1]: shorter binary
    representations are padded with zero bits on the left. *)
Lemma encode_row n v :
  (1 <= n)%nat -> 0 <= v < 2 ^ Z.of_nat n ->
  exists r k d,
    bits_of_string (zfill (drop2 (bin v)) n) = Ok r /\
    r = repeat false k ++ d /\ bits_of_string (drop2 (bin v)) = Ok d /\
    length r = n /\ bits_value r = v.
Proof.
  intros Hn Hv. destruct v as [|p|p]; [| |lia].
  - exists (repeat false (n - 1) ++ [false]), (n - 1)%nat, [false].
    change (drop2 (bin 0)) with "0"%string.
    unfold zfill. simpl Ascii.eqb. simpl orb. cbv iota.
    split; [by apply bits_of_padding|]. split; [done|]. split; [done|].
    split.
    + rewrite length_app, repeat_length. simpl. lia.
    + unfold bits_value. rewrite bits_value_from_app, bits_value_from_zeros.
      reflexivity.
  - rewrite drop2_bin_pos.
    pose proof (size_nat_bound p n (proj2 Hv)) as Hs.
    set (k := (n - Pos.size_nat p)%nat).
    exists (repeat false k ++ pos_bits p []), k, (pos_bits p []).
    assert (Hd : bits_of_string (pos_digits p EmptyString) = Ok (pos_bits p []))
      by (by apply bits_of_pos_digits).
    split; [|split; [done|split; [done|split]]].
    + unfold zfill. destruct (pos_digits_head p "") as (t & Et).
      rewrite pos_digits_length. simpl String.length. rewrite Nat.add_0_r.
      fold k. rewrite Et at 1. simpl Ascii.eqb. simpl orb. cbv iota.
      by apply bits_of_padding.
    + rewrite length_app, repeat_length, pos_bits_length. simpl. lia.
    + unfold bits_value.
      rewrite bits_value_from_app, bits_value_from_zeros, bits_value_from_pos.
      simpl. reflexivity.
Qed.

(* --------------------------------------------------------------------- *)
(* 18. Randomization                                                      *)
(* --------------------------------------------------------------------- *)

Lemma pow2_minus_1_pos n : (1 <= n)%nat -> 1 <= 2 ^ Z.of_nat n - 1.
Proof.
  intros H. assert (2 ^ 1 <= 2 ^ Z.of_nat n) by (apply Z.pow_le_mono_r; lia).
  lia.
Qed.

(** The draw of [gen]: a value of the half-open range [0, 2^n - 1). *)
Lemma randrange_draw n w :
  (1 <= n)%nat ->
  exists v, 0 <= v < 2 ^ Z.of_nat n - 1 /\
    randrange 0 (2 ^ Z.of_nat n - 1) w
    = (Ok v, World (rows w) (bufs w) (entropy w) (S (drawn w))).
Proof.
  intros Hn. pose proof (pow2_minus_1_pos n Hn) as Hp.
  exists (entropy w (drawn w) mod (2 ^ Z.of_nat n - 1)). split.
  - apply Z.mod_pos_bound. lia.
  - unfold randrange.
    destruct (Z.leb_spec (2 ^ Z.of_nat n - 1) 0) as [|_]; [lia|].
    by rewrite Z.sub_0_r.
Qed.

(** One new row: its address is fresh and its bits denote the draw. *)
Lemma random_row_ok n w :
  (1 <= n)%nat ->
  exists r : bitarray,
    drawn_row n r /\
    Plane.random_row (2 ^ Z.of_nat n - 1) n w
    = (Ok (length (rows w)),
       World (rows w ++ [r]) (bufs w) (entropy w) (S (drawn w))).
Proof.
  intros Hn. destruct (randrange_draw n w Hn) as (v & Hv & Hr).
  destruct (encode_row n v Hn) as (r & k & d & Hbits & _ & _ & Hlen & Hval); [lia|].
  exists r. split; [split; [done|lia]|].
  unfold Plane.random_row, Plane.gen.
  unfold mbind, M_bind. rewrite Hr. simpl.
  unfold lift. rewrite Hbits. done.
Qed.

(** With [N = 0] the range of the draw is empty. *)
Lemma random_row_empty_range w :
  Plane.random_row (2 ^ Z.of_nat 0 - 1) 0 w = (Raise ValueError, w).
Proof. reflexivity. Qed.

Lemma for_each_seq_inv (body : nat -> M unit) (I : nat -> world -> Prop) n :
  forall s w,
  I s w ->
  (forall k w1, (s <= k < s + n)%nat -> I k w1 ->
     exists w2, body k w1 = (Ok tt, w2) /\ I (S k) w2) ->
  exists w', for_each (seq s n) body w = (Ok tt, w') /\ I (s + n)%nat w'.
Proof.
  induction n as [|n IH]; intros s w H0 Hstep; simpl.
  - exists w. rewrite Nat.add_0_r. done.
  - destruct (Hstep s w) as (w2 & Hb & H2); [lia|done|].
    destruct (IH (S s) w2 H2) as (w' & Hf & H').
    { intros k w1 Hk. apply Hstep. lia. }
    exists w'. erewrite bind_ok by exact Hb.
    split; [done|]. by replace (s + S n)%nat with (S s + n)%nat by lia.
Qed.

Lemma randomize_inv_start n v w buf :
  bufs w !! nd_base v = Some buf -> randomize_inv n v w 0 w.
Proof.
  intros Hb. split; [done|]. split; [by exists []; rewrite app_nil_r|].
  split; [done|]. split; [done|].
  exists buf, buf. repeat split; try done. intros i Hi. lia.
Qed.

Lemma randomize_inv_step n v w0 k w1 :
  (1 <= n)%nat -> (k < nd_size v)%nat ->
  (forall buf, bufs w0 !! nd_base v = Some buf ->
     (nd_offset v + nd_size v <= length buf)%nat) ->
  randomize_inv n v w0 k w1 ->
  exists w2,
    (a ← Plane.random_row (2 ^ Z.of_nat n - 1) n; obj_flat_set (Arr v) k a) w1
    = (Ok tt, w2) /\ randomize_inv n v w0 (S k) w2.
Proof.
  intros Hn Hk Hfit (He & (extra & Hrows) & Hlen & Hother & buf0 & buf1 & Hb0 & Hb1 & Hl1 & Hdone & Hrest).
  destruct (random_row_ok n w1 Hn) as (r & Hr & Hrow).
  specialize (Hfit _ Hb0).
  eexists. split.
  { erewrite bind_ok by exact Hrow.
    unfold obj_flat_set, flat_set. simpl.
    destruct (Nat.ltb_spec k (nd_size v)) as [_|]; [|lia].
    rewrite Hb1.
    destruct (Nat.ltb_spec (nd_offset v + k) (length buf1)) as [_|]; [|lia].
    done. }
  split; [done|]. simpl. split.
  { exists (extra ++ [r]). rewrite Hrows. by rewrite <- (assoc_L app). }
  split; [by rewrite length_insert|].
  split; [intros b Hne; rewrite list_lookup_insert_ne by done; by apply Hother|].
  exists buf0, (<[(nd_offset v + k)%nat := Some (length (rows w1))]> buf1).
  split; [done|]. split.
  { apply list_lookup_insert_eq. by apply lookup_lt_Some in Hb1. }
  split; [by rewrite length_insert|]. split.
  - intros i Hi. destruct (decide (i = k)) as [->|Hne].
    + exists (length (rows w1)), r. split; [|split; [|done]].
      * apply list_lookup_insert_eq. lia.
      * by rewrite list_lookup_middle.
    + destruct (Hdone i) as (a & r' & H1 & H2 & H3); [lia|].
      exists a, r'. split; [|split; [|done]].
      * rewrite list_lookup_insert_ne by lia. done.
      * by apply lookup_app_l_Some.
  - intros j Hj. rewrite list_lookup_insert_ne by lia. apply Hrest. lia.
Qed.

Lemma randomize_empty_shape p w :
  Plane.shape p = [] -> Plane.randomize p w = (Ok p, w).
Proof. intros H. unfold Plane.randomize. by rewrite H. Qed.

(** A one-dimensional plane takes a new row; the old row object is left
    as it was. *)
Lemma randomize_one_dimension p w :
  length (Plane.shape p) = 1%nat -> (1 <= Plane.N p)%nat ->
  exists r : bitarray,
    drawn_row (Plane.N p) r /\
    Plane.randomize p w
    = (Ok (Plane.Make (Bits (length (rows w))) (Plane.shape p) (Plane.N p)),
       World (rows w ++ [r]) (bufs w) (entropy w) (S (drawn w))).
Proof.
  intros H1 Hn. destruct (random_row_ok (Plane.N p) w Hn) as (r & Hr & Hrow).
  exists r. split; [done|].
  unfold Plane.randomize. rewrite H1. simpl.
  erewrite bind_ok by exact Hrow. done.
Qed.

(** A plane over an array has every cell of its window rewritten, in the
    buffer the window is on. *)
Lemma randomize_array p w v :
  well_formed p w = true -> Plane.grid p = Arr v -> Plane.shape p <> [] ->
  (1 <= Plane.N p)%nat ->
  exists w', Plane.randomize p w = (Ok p, w') /\
             randomize_inv (Plane.N p) v w (nd_size v) w'.
Proof.
  intros Hwf Hg Hne Hn.
  destruct (well_formed_inv _ _ Hwf) as (_ & _ & _ & Hsh).
  rewrite Hg in Hsh. destruct Hsh as [H1 _].
  destruct (well_formed_window p w v Hwf Hg) as (buf & Hbuf & Hfit).
  destruct (for_each_seq_inv
              (fun i => a ← Plane.random_row (2 ^ Z.of_nat (Plane.N p) - 1) (Plane.N p);
                        obj_flat_set (Arr v) i a)
              (randomize_inv (Plane.N p) v w) (nd_size v) 0%nat w)
    as (w' & Hloop & Hinv).
  { by eapply randomize_inv_start. }
  { intros k w1 Hk Hi. apply randomize_inv_step; try done; [lia|].
    intros buf' Hb'. congruence. }
  exists w'. split; [|done].
  unfold Plane.randomize.
  destruct (Plane.shape p) as [|d0 [|d1 sh]] eqn:Es; try done.
  simpl. rewrite Hg. unfold range. simpl get_size.
  erewrite bind_ok by reflexivity.
  erewrite bind_ok by exact Hloop. done.
Qed.

(** With [N = 0] the draw is over an empty range: [randomize] raises at the
    first row, before any write; a grid without rows draws nothing. *)
Lemma randomize_width_zero p w :
  well_formed p w = true -> Plane.shape p <> [] -> Plane.N p = 0%nat ->
  Plane.randomize p w =
    if (prod_dims (but_last (Plane.shape p)) =? 0)%nat then (Ok p, w)
    else (Raise ValueError, w).
Proof.
  intros Hwf Hne H0.
  destruct (well_formed_inv _ _ Hwf) as (_ & _ & _ & Hsh).
  unfold Plane.randomize. rewrite H0.
  destruct (Plane.shape p) as [|d0 [|d1 sh]] eqn:Es; [done|reflexivity|].
  destruct (Plane.grid p) as [| |a|v] eqn:Hg; try done.
  destruct Hsh as [_ Hd].
  change (0 <? length (d0 :: d1 :: sh))%nat with true.
  change (length (d0 :: d1 :: sh) =? 1)%nat with false. cbv iota.
  simpl get_size. erewrite bind_ok by reflexivity.
  unfold nd_size. rewrite Hd. unfold range.
  destruct (prod_dims (but_last (d0 :: d1 :: sh))) as [|m]; [done|].
  reflexivity.
Qed.



(** After the loop every cell of the window holds a drawn row. *)
Lemma randomize_inv_rows p w v w' :
  well_formed p w = true -> Plane.grid p = Arr v ->
  randomize_inv (Plane.N p) v w (nd_size v) w' ->
  length (cells p w') = nd_size v /\
  Forall (fun r => exists b, r = Some b /\ drawn_row (Plane.N p) b)
         (grid_rows p w') /\
  window_ok p w' = true.
Proof.
  intros Hwf Hg (_ & _ & _ & _ & buf0 & buf1 & Hb0 & Hb1 & Hl1 & Hdone & _).
  destruct (well_formed_window p w v Hwf Hg) as (buf & Hbuf & Hfit).
  assert (buf = buf0) as -> by congruence.
  assert (Hc : cells p w' = take (nd_size v) (drop (nd_offset v) buf1)).
  { unfold cells. by rewrite Hg, Hb1. }
  split; [|split].
  - rewrite Hc, length_take, length_drop. lia.
  - unfold grid_rows. rewrite Hc, Forall_fmap, Forall_lookup.
    intros i c Hi.
    assert (Hlt : (i < nd_size v)%nat).
    { apply lookup_lt_Some in Hi. rewrite length_take in Hi. lia. }
    rewrite lookup_take_lt, lookup_drop in Hi by done.
    destruct (Hdone i Hlt) as (a & r & H1 & H2 & H3).
    exists r. split; [|done].
    assert (c = Some a) as -> by congruence. done.
  - unfold window_ok. rewrite Hg, Hb1. apply Nat.leb_le. lia.
Qed.

(** [randomize] on a well-formed plane of width [N >= 1] completes, and all
    the rows of the resulting plane are drawn rows. *)
Lemma randomize_drawn_rows p w :
  well_formed p w = true -> Plane.shape p <> [] -> (1 <= Plane.N p)%nat ->
  exists p' w',
    Plane.randomize p w = (Ok p', w') /\
    Plane.shape p' = Plane.shape p /\ Plane.N p' = Plane.N p /\
    well_formed p' w' = true /\
    Forall (fun r => exists b, r = Some b /\ drawn_row (Plane.N p) b)
           (grid_rows p' w').
Proof.
  intros Hwf Hne Hn.
  destruct (well_formed_inv _ _ Hwf) as (HN & Hlen & _ & Hsh).
  destruct (Plane.grid p) as [| |a|v] eqn:Hg; try done.
  - destruct (randomize_one_dimension p w Hsh Hn) as (r & Hr & Hrand).
    eexists _, _. split; [exact Hrand|]. split; [done|]. split; [done|].
    assert (Hrows : Forall (fun r0 => exists b, r0 = Some b /\ drawn_row (Plane.N p) b)
              (grid_rows (Plane.Make (Bits (length (rows w))) (Plane.shape p) (Plane.N p))
                 (World (rows w ++ [r]) (bufs w) (entropy w) (S (drawn w))))).
    { unfold grid_rows, cells. simpl. constructor; [|constructor].
      exists r. by rewrite list_lookup_middle. }
    split; [|done].
    apply well_formed_intro; simpl; try done.
    + unfold cells in *. simpl. rewrite Hg in Hlen. done.
    + unfold rows_have_width. eapply Forall_impl; [exact Hrows|].
      intros r0 (b & -> & Hb & _). by exists b.
  - destruct Hsh as [H1 Hd].
    destruct (randomize_array p w v Hwf Hg Hne Hn) as (w' & Hrand & Hinv).
    destruct (randomize_inv_rows p w v w' Hwf Hg Hinv) as (Hc & Hrows & Hwin).
    exists p, w'. split; [done|]. split; [done|]. split; [done|].
    split; [|done].
    apply well_formed_intro; try done.
    + rewrite Hc. unfold nd_size. by rewrite Hd.
    + unfold rows_have_width. eapply Forall_impl; [exact Hrows|].
      intros r0 (b & -> & Hb & _). by exists b.
    + by rewrite Hg.
Qed.

(** C8. Every bit row in the storage of a grid has length exactly
    [N = shape[-1]]: after construction with default storage, every cell
    holds a row of [N] zero bits; [randomize] keeps the invariant, writing
    rows of exactly [N] bits (and leaving the store as it was when it
    raises); a drawn value whose binary representation is shorter than [N]
    is padded with zero bits on the left. *)
Theorem every_row_has_width_N :
  (forall shape w, exists p w',
     Plane.init shape None w = (Ok p, w') /\
     Plane.shape p = shape /\ Plane.N p = Plane.width shape /\
     well_formed p w' = true /\ rows_have_width p w' /\
     length (grid_rows p w') = prod_dims (but_last shape)) /\
  (forall p w, well_formed p w = true ->
     match Plane.randomize p w with
     | (Ok p', w') =>
         Plane.shape p' = Plane.shape p /\ Plane.N p' = Plane.N p /\
         well_formed p' w' = true /\ rows_have_width p' w' /\
         length (grid_rows p' w') = prod_dims (but_last (Plane.shape p))
     | (Raise _, w') => w' = w /\ Plane.N p = 0%nat
     end) /\
  (forall n v, (1 <= n)%nat -> 0 <= v < 2 ^ Z.of_nat n - 1 ->
     exists r k d,
       bits_of_string (zfill (drop2 (bin v)) n) = Ok r /\
       r = repeat false k ++ d /\ bits_of_string (drop2 (bin v)) = Ok d /\
       length r = n).
Proof.
  assert (Hwidth : forall p w, well_formed p w = true ->
            rows_have_width p w /\
            length (grid_rows p w) = prod_dims (but_last (Plane.shape p))).
  { intros p w Hwf. destruct (well_formed_inv _ _ Hwf) as (_ & Hl & Hr & _).
    split; [done|]. unfold grid_rows. by rewrite length_fmap. }
  split; [|split].
  - intros shape w.
    destruct (init_default_well_formed shape w) as (p & w' & Hi & Hs & HN & Hwf).
    exists p, w'. destruct (Hwidth _ _ Hwf) as [H1 H2].
    rewrite Hs in H2. done.
  - intros p w Hwf.
    destruct (decide (Plane.shape p = [])) as [He|Hne].
    { rewrite randomize_empty_shape by done.
      destruct (Hwidth _ _ Hwf). done. }
    destruct (Plane.N p) as [|n] eqn:En.
    + rewrite randomize_width_zero by done.
      destruct (prod_dims (but_last (Plane.shape p)) =? 0)%nat; [|done].
      destruct (Hwidth _ _ Hwf). done.
    + destruct (randomize_drawn_rows p w Hwf Hne) as (p' & w' & Hr & Hs & HN & Hwf' & _);
        [lia|].
      rewrite Hr. destruct (Hwidth _ _ Hwf') as [H1 H2].
      rewrite Hs in H2. rewrite <- En. done.
  - intros n v Hn Hv.
    destruct (encode_row n v Hn) as (r & k & d & H1 & H2 & H3 & H4 & _); [lia|].
    by exists r, k, d.
Qed.

Lemma every_row_has_width_N_witness :
  let w := World [] [] (fun _ => 5) 0 in
  exists p w' p' w'',
    Plane.init [2; 4]%nat None w = (Ok p, w') /\ rows_have_width p w' /\
    Plane.randomize p w' = (Ok p', w'') /\ rows_have_width p' w''.
Proof.
  intros w.
  destruct every_row_has_width_N as (Hinit & Hrand & _).
  destruct (Hinit [2; 4]%nat w) as (p & w' & Hi & Hs & HN & Hwf & Hrows & _).
  specialize (Hrand p w' Hwf).
  destruct (Plane.randomize p w') as [[p'|e] w''] eqn:Hr.
  - exists p, w', p', w''. tauto.
  - exfalso. destruct Hrand as [_ H0]. rewrite HN in H0. discriminate H0.
Defined.



(** C10, as the code has it. On a well-formed grid of non-empty shape and
    width [N = 0], [randomize] raises ValueError (the draw is over the empty
    range [0, 0)) and leaves the store as it was, provided the grid has at
    least one row; when an outer dimension is 0 there is no row to draw for,
    and [randomize] completes without changing anything. *)
Theorem randomize_zero_width (p : Plane.t) (w : world) :
  well_formed p w = true -> Plane.shape p <> [] -> Plane.N p = 0%nat ->
  (prod_dims (but_last (Plane.shape p)) <> 0%nat ->
     Plane.randomize p w = (Raise ValueError, w)) /\
  (prod_dims (but_last (Plane.shape p)) = 0%nat ->
     Plane.randomize p w = (Ok p, w)).
Proof.
  intros Hwf Hne H0. rewrite randomize_width_zero by done.
  destruct (Nat.eqb_spec (prod_dims (but_last (Plane.shape p))) 0); split; done.
Qed.

Lemma randomize_zero_width_witness :
  let w := World [[]; []] [[Some 0%nat; Some 1%nat]] (fun _ => 0) 0 in
  let p := Plane.Make (Arr (NdArray 0%nat 0%nat [2%nat])) [2; 0]%nat 0%nat in
  well_formed p w = true /\ Plane.shape p <> [] /\ Plane.N p = 0%nat /\
  Plane.randomize p w = (Raise ValueError, w).
Proof.
  intros w p.
  assert (Hwf : well_formed p w = true) by reflexivity.
  assert (Hne : Plane.shape p <> []) by discriminate.
  split; [exact Hwf|]. split; [exact Hne|]. split; [reflexivity|].
  apply (proj1 (randomize_zero_width p w Hwf Hne eq_refl)).
  discriminate.
Defined.

(** C10 fails as stated: a grid of shape (0,0) has a non-empty shape and
    width 0, yet [randomize] completes on it; the empty shape is not the
    only one for which it does nothing. *)
Lemma randomize_zero_rows_completes :
  let w := World [] [] (fun _ => 0) 0 in
  exists p w',
    Plane.init [0; 0]%nat None w = (Ok p, w') /\
    Plane.shape p = [0; 0]%nat /\ Plane.N p = 0%nat /\
    Plane.randomize p w' = (Ok p, w').
Proof. intros w. eexists _, _. repeat split. Qed.

(* --------------------------------------------------------------------- *)
(* 19. Views alias the storage of their parent                            *)
(* --------------------------------------------------------------------- *)





(** When a tuple subscript yields a view, the view is the window that the
    tuple selects in the parent's buffer, and the store is untouched. *)
Lemma getitem_view_inv p w cs v w1 :
  well_formed p w = true ->
  Plane.getitem p (ITuple cs) w = (Ok (Plane.View v), w1) ->
  exists vp k,
    Plane.grid p = Arr vp /\
    (length cs + 1 < length (Plane.shape p))%nat /\
    prefix_pos (but_last (Plane.shape p)) cs = Some k /\
    v = Plane.Make
          (Arr (NdArray (nd_base vp) (nd_offset vp + k)
                  (drop (length cs) (but_last (Plane.shape p)))))
          (drop (length cs) (but_last (Plane.shape p)) ++ [Plane.N p])
          (Plane.N p) /\
    w1 = w.
Proof.
  intros Hwf Hget.
  destruct (well_formed_inv _ _ Hwf) as (_ & _ & _ & Hsh).
  destruct (Plane.grid p) as [| |a|vp] eqn:Hg; try done.
  { rewrite (getitem_tuple_on_bits p a) in Hget by done. done. }
  destruct Hsh as [H1 Hd].
  destruct (decide (length cs = length (Plane.shape p))) as [E|E].
  { exfalso. unfold Plane.getitem in Hget. rewrite E, Nat.eqb_refl in Hget.
    unfold mbind, M_bind in Hget.
    destruct (subscript (Plane.grid p) (ITuple (but_last cs)) w) as [[o|e] w2]; [|done].
    destruct (lift (tuple_last cs) w2) as [[c|e] w3]; [|done].
    destruct (subscript o (IInt c) w3) as [[x|e] w4]; done. }
  destruct (prefix_pos (but_last (Plane.shape p)) cs) as [k|] eqn:Hk.
  2:{ exfalso. unfold Plane.getitem in Hget.
      destruct (Nat.eqb_spec (length cs) (length (Plane.shape p))) as [|_]; [done|].
      erewrite bind_raise in Hget; [done|].
      rewrite Hg, subscript_arr_tuple, Hd. by apply nd_walk_out_of_range. }
  assert (Hin : in_range (but_last (Plane.shape p)) cs)
    by (by eapply prefix_pos_in_range).
  pose proof (in_range_length _ _ Hin) as Hle. rewrite length_but_last in Hle.
  destruct (decide (length cs + 1 = length (Plane.shape p))%nat) as [E1|E1].
  { rewrite (getitem_row_tuple p w vp) in Hget by done. done. }
  assert (Hlt : (length cs + 1 < length (Plane.shape p))%nat) by lia.
  assert (Hne : Plane.shape p <> []).
  { intros E2. rewrite E2 in Hlt. simpl in Hlt. lia. }
  rewrite (getitem_partial p w vp cs k) in Hget by done.
  injection Hget as <- <-. by exists vp, k.
Qed.


(** On a grid of three or more dimensions an integer subscript is the
    one-element tuple: both select the same sub-array view. *)
Lemma getitem_int_as_tuple p w v c :
  Plane.grid p = Arr v -> (2 <= length (nd_dims v))%nat ->
  length (Plane.shape p) <> 1%nat ->
  Plane.getitem p (IInt c) w = Plane.getitem p (ITuple [c]) w.
Proof.
  intros Hg Hd H1. unfold Plane.getitem.
  destruct (Nat.eqb_spec (length (Plane.shape p)) 1) as [|_]; [done|].
  destruct (Nat.eqb_spec (length [c]) (length (Plane.shape p))) as [E|_].
  { simpl in E. congruence. }
  rewrite Hg. unfold subscript, nd_index, mbind, M_bind.
  destruct (nd_dims v) as [|d [|d2 ds]]; simpl in Hd; try lia.
  simpl. destruct (norm_index c d); done.
Qed.



(** Rows written by [randomize] through a view over a sub-array are read
    through the parent: here the view of row block 1 of a (2,2,4) grid is
    randomized and the parent reads the drawn bits at (1,0,1) and (1,1,3). *)
Example randomize_view_seen_by_parent :
  let w := World [] [] (fun _ => 5) 0 in
  exists p w1 v w2,
    Plane.init [2; 2; 4]%nat None w = (Ok p, w1) /\
    Plane.getitem p (ITuple [1]) w1 = (Ok (Plane.View v), w1) /\
    Plane.getitem p (ITuple [1; 0; 1]) w1 = (Ok (Plane.Value (Bit false)), w1) /\
    Plane.randomize v w1 = (Ok v, w2) /\
    Plane.getitem p (ITuple [1; 0; 1]) w2 = (Ok (Plane.Value (Bit true)), w2) /\
    Plane.getitem p (ITuple [1; 1; 3]) w2 = (Ok (Plane.Value (Bit true)), w2) /\
    Plane.getitem p (ITuple [0; 0; 1]) w2 = (Ok (Plane.Value (Bit false)), w2).
Proof.
  intros w.
  exists (Plane.Make (Arr (NdArray 0%nat 0%nat [2; 2]%nat)) [2; 2; 4]%nat 4%nat),
    (World (repeat (zeros 4) 4)
       [[Some 0%nat; Some 1%nat; Some 2%nat; Some 3%nat]] (fun _ => 5) 0),
    (Plane.Make (Arr (NdArray 0%nat 2%nat [2%nat])) [2; 4]%nat 4%nat),
    (World (repeat (zeros 4) 4 ++ [[false; true; false; true]; [false; true; false; true]])
       [[Some 0%nat; Some 1%nat; Some 4%nat; Some 5%nat]] (fun _ => 5) 2).
  repeat (split; [vm_compute; reflexivity|]). vm_compute. reflexivity.
Qed.


(* --------------------------------------------------------------------- *)
(* 20. Dense materialization                                              *)
(* --------------------------------------------------------------------- *)

Lemma list_comp_pure {B} (f : nat -> M B) (g : nat -> B) xs w :
  (forall x, x ∈ xs -> f x w = (Ok (g x), w)) ->
  list_comp xs f w = (Ok (g <$> xs), w).
Proof.
  induction xs as [|x xs IH]; intros H; simpl; [done|].
  erewrite bind_ok by (apply H; left).
  erewrite bind_ok by (apply IH; intros y Hy; apply H; by right).
  done.
Qed.

Lemma concat_lookup_uniform {A} (n : nat) (rs : list (list A)) : forall k j,
  Forall (fun r => length r = n) rs -> (j < n)%nat ->
  concat rs !! (k * n + j)%nat = rs !! k ≫= (fun r => r !! j).
Proof.
  induction rs as [|r rs IH]; intros k j Hall Hj; simpl.
  - by rewrite !lookup_nil.
  - apply Forall_cons in Hall as [Hr Hall]. destruct k as [|k]; simpl.
    + rewrite lookup_app_l by lia. done.
    + rewrite lookup_app_r by lia.
      replace (n + k * n + j - length r)%nat with (k * n + j)%nat by lia.
      by apply IH.
Qed.

Lemma length_concat_uniform {A} (n : nat) (rs : list (list A)) :
  Forall (fun r => length r = n) rs -> length (concat rs) = (length rs * n)%nat.
Proof.
  induction 1 as [|r rs Hr _ IH]; simpl; [done|].
  rewrite length_app, IH. lia.
Qed.

Lemma dense_pos_snoc ds n : forall cs c k j,
  prefix_pos ds cs = Some k -> length cs = length ds ->
  norm_index c n = Some j ->
  dense_pos (ds ++ [n]) (cs ++ [c]) = Some (k * n + j)%nat.
Proof.
  induction ds as [|d ds IH]; intros [|c0 cs] c k j Hk Hlen Hj;
    simpl in *; try done.
  - injection Hk as <-. rewrite Hj. f_equal. unfold prod_dims. simpl. lia.
  - destruct (norm_index c0 d) as [i|]; [|done].
    destruct (prefix_pos ds cs) as [k'|] eqn:Hk'; [|done].
    injection Hk as <-.
    rewrite (IH cs c k' j) by (done || lia).
    f_equal. rewrite prod_dims_app. unfold prod_dims at 2. simpl. lia.
Qed.

Section Materialize.
Variables (p : Plane.t) (w : world) (v : ndarray).
Hypothesis Hwf : well_formed p w = true.
Hypothesis Hg : Plane.grid p = Arr v.
Hypothesis Hne : Plane.shape p <> [].

Lemma length_cells : length (cells p w) = nd_size v.
Proof.
  destruct (well_formed_inv _ _ Hwf) as (_ & Hl & _ & Hsh).
  rewrite Hg in Hsh. destruct Hsh as [_ Hd].
  rewrite Hl. unfold nd_size. by rewrite Hd.
Qed.

Lemma row_of_cell_spec i :
  (i < nd_size v)%nat ->
  exists (a : addr) (r : bitarray),
    cells p w !! i = Some (Some a) /\ rows w !! a = Some r /\
    length r = Plane.N p /\ row_of_cell p w i = r /\
    obj_flat_get (Arr v) i w = (Ok (Bits a), w).
Proof.
  intros Hi.
  destruct (well_formed_cell p w v i Hwf Hg Hi)
    as (buf & a & r & Hbuf & Hcell & Hc & Hr & Hl).
  exists a, r. repeat split; try done.
  - unfold row_of_cell. rewrite Hc. by rewrite Hr.
  - unfold obj_flat_get, flat_get.
    destruct (Nat.ltb_spec i (nd_size v)) as [_|]; [|lia].
    unfold nd_elem. by rewrite Hbuf, Hcell.
Qed.

Lemma rows_uniform :
  Forall (fun r => length r = Plane.N p) (storage_rows p w).
Proof.
  unfold storage_rows, range. rewrite length_cells.
  apply Forall_fmap, Forall_forall. intros i Hi.
  apply elem_of_seq in Hi.
  destruct (row_of_cell_spec i) as (a & r & _ & _ & Hl & Hr & _); [lia|].
  simpl. by rewrite Hr.
Qed.

Lemma length_storage_rows : length (storage_rows p w) = nd_size v.
Proof.
  unfold storage_rows, range. by rewrite length_fmap, length_seq, length_cells.
Qed.

(** [bits] completes without writing, and the dense array has the shape
    of the plane and the rows of the storage, in storage order. *)
Lemma bits_array :
  Plane.bits p w
  = (Ok (DBool (Plane.shape p) (concat (storage_rows p w))), w).
Proof.
  pose proof (array_plane_dims p w v Hwf Hg) as Hd.
  pose proof (array_plane_shape p w Hwf Hne) as Es.
  destruct (well_formed_inv _ _ Hwf) as (_ & _ & _ & Hsh).
  rewrite Hg in Hsh. destruct Hsh as [H1 _].
  unfold Plane.bits.
  destruct (Nat.eqb_spec (length (Plane.shape p)) 1) as [|_]; [done|].
  rewrite Hg. simpl get_size. erewrite bind_ok by reflexivity.
  erewrite bind_ok.
  2:{ apply (list_comp_pure _ (row_of_cell p w)). intros i Hi.
      apply elem_of_seq in Hi.
      destruct (row_of_cell_spec i) as (a & r & _ & Hr & _ & Hrc & Hget); [lia|].
      erewrite bind_ok by exact Hget.
      unfold py_list, deref. by rewrite Hr, Hrc. }
  rewrite <- length_cells. fold (storage_rows p w).
  pose proof rows_uniform as Hu. pose proof length_storage_rows as Hlen.
  set (rs := storage_rows p w) in *.
  assert (Hsize : length (concat rs) = prod_dims (Plane.shape p)).
  { rewrite (length_concat_uniform (Plane.N p)) by done.
    rewrite Hlen, Es, prod_dims_app. unfold nd_size. rewrite Hd.
    unfold prod_dims at 3. simpl. lia. }
  destruct rs as [|r rs'] eqn:Ers.
  - erewrite bind_ok by reflexivity.
    unfold np_reshape. simpl length. simpl in Hsize. rewrite <- Hsize. done.
  - erewrite bind_ok.
    2:{ unfold np_array_rows.
        assert (Hall : forallb (fun r' => (length r' =? length r)%nat) (r :: rs') = true).
        { apply forallb_forall. intros r' Hr'. apply Nat.eqb_eq.
          rewrite Forall_forall in Hu.
          rewrite (Hu r') by (by apply list_elem_of_In).
          symmetry. apply Hu. left. }
        rewrite Hall. reflexivity. }
    unfold np_reshape. rewrite Hsize, Nat.eqb_refl. done.
Qed.

(** The round trip: the dense array and the plane agree at every full
    coordinate in range. *)
Lemma bits_round_trip cs :
  length cs = length (Plane.shape p) -> in_range (Plane.shape p) cs ->
  exists d b,
    Plane.bits p w = (Ok d, w) /\ dense_shape d = Plane.shape p /\
    dense_get d cs w = (Ok (Bit b), w) /\
    Plane.getitem p (ITuple cs) w = (Ok (Plane.Value (Bit b)), w).
Proof.
  intros Hlen Hin.
  pose proof (array_plane_dims p w v Hwf Hg) as Hd.
  pose proof (array_plane_shape p w Hwf Hne) as Es.
  assert (Hc : cs <> []).
  { intros ->. destruct (Plane.shape p); done. }
  destruct (snoc_but_last _ Hc) as (c & Ec & Hlc).
  assert (Hl : length (but_last cs) = length (but_last (Plane.shape p)))
    by (rewrite !length_but_last; lia).
  rewrite Es, Ec in Hin. apply in_range_full_snoc in Hin as [Hin Hcn]; [|done].
  destruct (in_range_prefix_pos _ _ Hin) as (k & Hk & Hb).
  rewrite Hl, drop_all in Hb. change (prod_dims []) with 1%nat in Hb.
  destruct (norm_index c (Plane.N p)) as [j|] eqn:Hj.
  2:{ apply norm_index_None in Hj. lia. }
  destruct (getitem_full p w v cs c k j Hwf Hg Hlen Hk Hlc Hj)
    as (a & r & b & Hcell & Hr & Hlr & Hbit & Hget).
  exists (DBool (Plane.shape p) (concat (storage_rows p w))), b.
  split; [apply bits_array|]. split; [done|]. split; [|done].
  assert (Hpos : dense_pos (Plane.shape p) cs = Some (k * Plane.N p + j)%nat).
  { rewrite Es, Ec. by apply dense_pos_snoc. }
  unfold dense_get. rewrite Hpos.
  rewrite (concat_lookup_uniform (Plane.N p)).
  2:{ apply rows_uniform. }
  2:{ apply norm_index_Some in Hj. lia. }
  assert (Hkv : (k < nd_size v)%nat) by (unfold nd_size; rewrite Hd; lia).
  assert (Hrk : storage_rows p w !! k = Some r).
  { unfold storage_rows, range. rewrite length_cells.
    rewrite list_lookup_fmap, lookup_seq_lt by done. simpl.
    unfold row_of_cell. rewrite Hcell. by rewrite Hr. }
  rewrite Hrk. simpl. by rewrite Hbit.
Qed.

End Materialize.

(** On a well-formed grid of two or more dimensions, materialization has
    the logical shape of the grid and agrees with indexing at every full
    coordinate in range. *)
Lemma materialize_round_trip p w cs :
  well_formed p w = true -> (2 <= length (Plane.shape p))%nat ->
  length cs = length (Plane.shape p) -> in_range (Plane.shape p) cs ->
  exists d b,
    Plane.bits p w = (Ok d, w) /\ dense_shape d = Plane.shape p /\
    dense_get d cs w = (Ok (Bit b), w) /\
    Plane.getitem p (ITuple cs) w = (Ok (Plane.Value (Bit b)), w).
Proof.
  intros Hwf H2 Hlen Hin.
  destruct (well_formed_inv _ _ Hwf) as (_ & _ & _ & Hsh).
  destruct (Plane.grid p) as [| |a|v] eqn:Hg; try done; [lia|].
  apply (bits_round_trip p w v); try done.
  intros E. rewrite E in H2. simpl in H2. lia.
Qed.

Example materialize_round_trip_example :
  let w := World [] [] (fun _ => 5) 0 in
  exists p w1 d,
    (q ← Plane.init [2; 4]%nat None; Plane.randomize q) w = (Ok p, w1) /\
    Plane.bits p w1 = (Ok d, w1) /\
    d = DBool [2; 4]%nat [false; true; false; true; false; true; false; true] /\
    dense_get d [1; 3] w1 = (Ok (Bit true), w1) /\
    Plane.getitem p (ITuple [1; 3]) w1 = (Ok (Plane.Value (Bit true)), w1).
Proof.
  intros w.
  exists (Plane.Make (Arr (NdArray 0%nat 0%nat [2%nat])) [2; 4]%nat 4%nat),
    (World (repeat (zeros 4) 2 ++ [[false; true; false; true]; [false; true; false; true]])
       [[Some 2%nat; Some 3%nat]] (fun _ => 5) 2),
    (DBool [2; 4]%nat [false; true; false; true; false; true; false; true]).
  repeat (split; [vm_compute; reflexivity|]). vm_compute. reflexivity.
Qed.


(** The empty shape: the one cell of the zero-dimensional array holds an
    empty row, and the zero booleans collected from it do not fill the
    one-element shape (), so [bits] raises. *)
Example bits_empty_shape :
  fst ((p ← Plane.init [] None; Plane.bits p) (World [] [] (fun _ => 0) 0))
  = Raise ValueError.
Proof. reflexivity. Qed.

(* --------------------------------------------------------------------- *)
(* 21. Indexing: purity, composition, row views                           *)
(* --------------------------------------------------------------------- *)




Lemma prefix_pos_app dims : forall cs1 cs2 k1 k2,
  prefix_pos dims cs1 = Some k1 ->
  prefix_pos (drop (length cs1) dims) cs2 = Some k2 ->
  prefix_pos dims (cs1 ++ cs2) = Some (k1 + k2)%nat.
Proof.
  induction dims as [|d dims IH]; intros [|c cs1] cs2 k1 k2 H1 H2;
    simpl in H1; try done.
  - injection H1 as <-. simpl in *. done.
  - injection H1 as <-. simpl in *. done.
  - destruct (norm_index c d) as [i|] eqn:Hi; [|done].
    destruct (prefix_pos dims cs1) as [k'|] eqn:Hk; [|done].
    injection H1 as <-. simpl in H2. simpl. rewrite Hi.
    rewrite (IH cs1 cs2 k' k2) by done. f_equal. lia.
Qed.

(** X2. Partial tuple subscripts compose: when [p[cs1]] is a view and
    indexing that view with [cs2] is again a view, indexing [p] with the
    joined tuple [cs1 + cs2] yields that same view (same buffer, same
    window, same shape). *)
Theorem getitem_views_compose (p v1 v2 : Plane.t) (cs1 cs2 : list Z) (w : world) :
  well_formed p w = true ->
  Plane.getitem p (ITuple cs1) w = (Ok (Plane.View v1), w) ->
  Plane.getitem v1 (ITuple cs2) w = (Ok (Plane.View v2), w) ->
  Plane.getitem p (ITuple (cs1 ++ cs2)) w = (Ok (Plane.View v2), w).
Proof.
  intros Hwf H1 H2.
  destruct (getitem_view_inv p w cs1 v1 w Hwf H1)
    as (vp & k1 & Hg & Hlen1 & Hk1 & Hv1 & _).
  destruct (well_formed_inv _ _ Hwf) as (_ & _ & _ & Hsh).
  rewrite Hg in Hsh. destruct Hsh as [_ Hd].
  assert (Hwf1 : well_formed v1 w = true).
  { rewrite Hv1. by apply view_well_formed. }
  destruct (getitem_view_inv v1 w cs2 v2 w Hwf1 H2)
    as (vv & k2 & Hg1 & Hlen2 & Hk2 & Hv2 & _).
  set (dims := but_last (Plane.shape p)) in *.
  assert (Hs1 : but_last (Plane.shape v1) = drop (length cs1) dims).
  { rewrite Hv1. simpl. apply but_last_snoc. }
  assert (HN1 : Plane.N v1 = Plane.N p) by (by rewrite Hv1).
  assert (Hvv : vv = NdArray (nd_base vp) (nd_offset vp + k1) (drop (length cs1) dims)).
  { rewrite Hv1 in Hg1. simpl in Hg1. congruence. }
  rewrite Hs1 in Hk2, Hv2. rewrite HN1 in Hv2.
  assert (Hl1 : length (Plane.shape v1) = (length (Plane.shape p) - 1 - length cs1 + 1)%nat).
  { rewrite Hv1. simpl. rewrite length_app, length_drop. unfold dims.
    rewrite length_but_last. simpl. lia. }
  assert (Hne : Plane.shape p <> []).
  { intros E. rewrite E in Hlen1. simpl in Hlen1. lia. }
  rewrite (getitem_partial p w vp (cs1 ++ cs2) (k1 + k2)); try done.
  - rewrite Hv2, Hvv. simpl. fold dims.
    rewrite length_app, drop_drop, Nat.add_assoc. done.
  - rewrite length_app. lia.
  - by apply prefix_pos_app.
Qed.

Lemma getitem_views_compose_witness :
  let w := World (repeat (zeros 2) 8) [Some <$> seq 0 8] (fun _ => 0) 0 in
  let p := Plane.Make (Arr (NdArray 0%nat 0%nat [2; 2; 2]%nat)) [2; 2; 2; 2]%nat 2%nat in
  let v1 := Plane.Make (Arr (NdArray 0%nat 4%nat [2; 2]%nat)) [2; 2; 2]%nat 2%nat in
  let v2 := Plane.Make (Arr (NdArray 0%nat 6%nat [2%nat])) [2; 2]%nat 2%nat in
  well_formed p w = true /\
  Plane.getitem p (ITuple [1]) w = (Ok (Plane.View v1), w) /\
  Plane.getitem v1 (ITuple [-1]) w = (Ok (Plane.View v2), w) /\
  Plane.getitem p (ITuple [1; -1]) w = (Ok (Plane.View v2), w).
Proof.
  intros w p v1 v2.
  assert (Hwf : well_formed p w = true) by reflexivity.
  assert (H1 : Plane.getitem p (ITuple [1]) w = (Ok (Plane.View v1), w)) by reflexivity.
  assert (H2 : Plane.getitem v1 (ITuple [-1]) w = (Ok (Plane.View v2), w)) by reflexivity.
  split; [exact Hwf|]. split; [exact H1|]. split; [exact H2|].
  exact (getitem_views_compose p v1 v2 [1] [-1] w Hwf H1 H2).
Defined.

(** X3. The one-dimensional view that an integer subscript returns on a
    two-dimensional grid holds the row of the selected cell: in the store
    where it was created, every integer subscript on the view has the
    outcome of the two-component tuple on the parent, the IndexError of an
    offset out of range included. *)
Theorem row_view_reads_parent_row (p : Plane.t) (c : Z) (w : world) :
  well_formed p w = true -> length (Plane.shape p) = 2%nat ->
  in_range (but_last (Plane.shape p)) [c] ->
  exists v, Plane.getitem p (IInt c) w = (Ok (Plane.View v), w) /\
            Plane.shape v = [Plane.N p] /\
            forall j, Plane.getitem v (IInt j) w
                      = Plane.getitem p (ITuple [c; j]) w.
Proof.
  intros Hwf H2 Hin.
  destruct (well_formed_inv _ _ Hwf) as (_ & _ & _ & Hsh).
  destruct (Plane.grid p) as [| |a0|vp] eqn:Hg; try done.
  { rewrite H2 in Hsh. done. }
  destruct Hsh as [_ Hd].
  destruct (getitem_row_int p w vp c Hwf Hg H2 Hin) as (a & Hcell & Hget).
  eexists. split; [exact Hget|]. split; [done|].
  intros j. unfold Plane.getitem. simpl. rewrite H2. simpl.
  rewrite Hg, subscript_arr_tuple, Hd.
  destruct (Plane.shape p) as [|d [|n [|? ?]]] eqn:Es; try done.
  simpl in Hin. apply in_range_cons in Hin as [Hc _].
  destruct (norm_index c d) as [i|] eqn:Hi.
  2:{ apply norm_index_None in Hi. lia. }
  destruct (norm_index_Some _ _ _ Hi) as (Hlt & _ & Hval).
  assert (Hci : cells p w !! i = Some (Some a)).
  { change (but_last [d; n]) with [d] in Hcell.
    change (prod_dims [d]) with (d * 1)%nat in Hcell.
    rewrite Nat.mul_1_r, <- Hval, Nat2Z.id in Hcell. done. }
  destruct (well_formed_cell p w vp i Hwf Hg)
    as (buf & a' & r & Hbuf & Hbc & Hc' & _).
  { unfold nd_size. rewrite Hd. simpl. unfold prod_dims. simpl. lia. }
  assert (a' = a) as -> by congruence.
  unfold mbind at 3, M_bind at 3. simpl. rewrite Hi. simpl.
  unfold nd_elem. simpl. rewrite Nat.mul_1_r, Hbuf, Hbc. done.
Qed.

Lemma row_view_reads_parent_row_witness :
  let w := World [[false; true]; [true; false]]
                 [[Some 0%nat; Some 1%nat]] (fun _ => 0) 0 in
  let p := Plane.Make (Arr (NdArray 0%nat 0%nat [2%nat])) [2; 2]%nat 2%nat in
  well_formed p w = true /\ length (Plane.shape p) = 2%nat /\
  in_range (but_last (Plane.shape p)) [-1] /\
  exists v, Plane.getitem p (IInt (-1)) w = (Ok (Plane.View v), w) /\
            Plane.getitem v (IInt 0) w = Plane.getitem p (ITuple [-1; 0]) w.
Proof.
  intros w p.
  assert (Hwf : well_formed p w = true) by reflexivity.
  assert (H2 : length (Plane.shape p) = 2%nat) by reflexivity.
  assert (Hin : in_range (but_last (Plane.shape p)) [-1]).
  { apply in_range_cons. split; [simpl; lia|constructor]. }
  split; [exact Hwf|]. split; [exact H2|]. split; [exact Hin|].
  destruct (row_view_reads_parent_row p (-1) w Hwf H2 Hin) as (v & Hv & _ & Hr).
  exists v. split; [exact Hv|apply Hr].
Defined.

(* --------------------------------------------------------------------- *)
(* 22. Flattening: addresses, injectivity, failures                       *)
(* --------------------------------------------------------------------- *)

Lemma in_bounds_in_range dims cs : in_bounds dims cs -> in_range dims cs.
Proof.
  intros H. unfold in_range.
  rewrite take_ge by (apply Forall2_length in H; lia).
  eapply Forall2_impl; [exact H|]. simpl. intros c d Hc. lia.
Qed.

Lemma in_bounds_snoc ds n cs c :
  length cs = length ds ->
  in_bounds (ds ++ [n]) (cs ++ [c]) <->
  in_bounds ds cs /\ 0 <= c < Z.of_nat n.
Proof.
  intros Hlen. unfold in_bounds. split.
  - intros H. apply Forall2_app_inv in H; [|done].
    destruct H as [H1 H2]. split; [done|]. by inversion H2.
  - intros [H1 H2]. apply Forall2_app; [done|].
    apply List.Forall2_cons; [done|apply List.Forall2_nil].
Qed.

Lemma row_major_index_bound dims : forall cs,
  in_bounds dims cs ->
  0 <= row_major_index dims cs < Z.of_nat (prod_dims dims).
Proof.
  induction dims as [|d dims IH]; intros cs H; inversion H as [|c ? cs' ? Hc Hr]; subst.
  - simpl. unfold prod_dims. simpl. lia.
  - specialize (IH _ Hr). simpl row_major_index.
    change (prod_dims (d :: dims)) with (d * prod_dims dims)%nat.
    rewrite Nat2Z.inj_mul. nia.
Qed.

(** The offset that indexing resolves a non-negative coordinate to is its
    row-major index. *)
Lemma prefix_pos_row_major dims : forall cs,
  in_bounds dims cs ->
  prefix_pos dims cs = Some (Z.to_nat (row_major_index dims cs)).
Proof.
  induction dims as [|d dims IH]; intros cs H; inversion H as [|c ? cs' ? Hc Hr]; subst.
  - done.
  - simpl. rewrite norm_index_nonneg by lia. rewrite (IH _ Hr). f_equal.
    pose proof (row_major_index_bound _ _ Hr).
    rewrite Z2Nat.inj_add, Z2Nat.inj_mul, Nat2Z.id by lia. done.
Qed.

Lemma row_major_index_inj dims : forall cs1 cs2,
  in_bounds dims cs1 -> in_bounds dims cs2 ->
  row_major_index dims cs1 = row_major_index dims cs2 -> cs1 = cs2.
Proof.
  induction dims as [|d dims IH]; intros cs1 cs2 H1 H2 E;
    inversion H1 as [|c1 ? t1 ? Hc1 Hr1]; subst;
    inversion H2 as [|c2 ? t2 ? Hc2 Hr2]; subst; [done|].
  simpl in E.
  pose proof (row_major_index_bound _ _ Hr1) as B1.
  pose proof (row_major_index_bound _ _ Hr2) as B2.
  assert (c1 = c2) by nia. subst c2.
  f_equal. apply IH; try done. lia.
Qed.

(** X4. Full-index determinism: on a well-formed grid of two or more
    dimensions and for a full coordinate with every component in bounds,
    [flatten] gives the address of the bit that indexing reads: the flat
    index is the position of the row in storage order and the offset is the
    position of the bit in that row. *)
Theorem getitem_reads_flattened_address (p : Plane.t) (cs : list Z) (w : world) :
  well_formed p w = true -> (2 <= length (Plane.shape p))%nat ->
  in_bounds (Plane.shape p) cs ->
  exists (k j : nat) (r : bitarray) (b : bool),
    Plane.flatten p cs = Ok (Z.of_nat k, Z.of_nat j) /\
    storage_rows p w !! k = Some r /\ r !! j = Some b /\
    Plane.getitem p (ITuple cs) w = (Ok (Plane.Value (Bit b)), w).
Proof.
  intros Hwf H2 Hb.
  assert (Hlen : length cs = length (Plane.shape p)) by (by apply Forall2_length in Hb).
  destruct (well_formed_inv _ _ Hwf) as (HN & _ & _ & Hsh).
  destruct (Plane.grid p) as [| |a0|v] eqn:Hg; try done; [lia|].
  destruct Hsh as [_ Hd].
  assert (Hs : Plane.shape p <> []) by (intros E; rewrite E in H2; simpl in H2; lia).
  assert (Hc : cs <> []) by (intros E; rewrite E in Hlen; simpl in Hlen; lia).
  destruct (snoc_but_last _ Hc) as (c & Ec & Hlc).
  pose proof (array_plane_shape p w Hwf Hs) as Es.
  assert (Hl : length (but_last cs) = length (but_last (Plane.shape p)))
    by (rewrite !length_but_last; lia).
  rewrite Es, Ec in Hb. apply in_bounds_snoc in Hb as [Hb Hcn]; [|done].
  pose proof (row_major_index_bound _ _ Hb) as Hrm.
  set (k := Z.to_nat (row_major_index (but_last (Plane.shape p)) (but_last cs))).
  assert (Hk : prefix_pos (but_last (Plane.shape p)) (but_last cs) = Some k)
    by (by apply prefix_pos_row_major).
  assert (Hj : norm_index c (Plane.N p) = Some (Z.to_nat c))
    by (by apply norm_index_nonneg).
  destruct (getitem_full p w v cs c k (Z.to_nat c) Hwf Hg Hlen Hk Hlc Hj)
    as (a & r & b & Hcell & Hr & Hlr & Hbit & Hget).
  exists k, (Z.to_nat c), r, b. split; [|split; [|done]].
  - rewrite (flatten_full_coordinate p cs c Hlen Hlc).
    unfold k. rewrite !Z2Nat.id by lia. done.
  - unfold storage_rows, range. rewrite (length_cells p w v Hwf Hg).
    assert (Hkv : (k < nd_size v)%nat).
    { unfold nd_size. rewrite Hd. unfold k. lia. }
    rewrite list_lookup_fmap, lookup_seq_lt by done. simpl.
    unfold row_of_cell. by rewrite Hcell, Hr.
Qed.

Lemma getitem_reads_flattened_address_witness :
  let w := World [[false; true]; [true; false]]
                 [[Some 0%nat; Some 1%nat]] (fun _ => 0) 0 in
  let p := Plane.Make (Arr (NdArray 0%nat 0%nat [2%nat])) [2; 2]%nat 2%nat in
  well_formed p w = true /\ (2 <= length (Plane.shape p))%nat /\
  in_bounds (Plane.shape p) [1; 0] /\
  exists (k j : nat) (r : bitarray) (b : bool),
    Plane.flatten p [1; 0] = Ok (Z.of_nat k, Z.of_nat j) /\
    storage_rows p w !! k = Some r /\ r !! j = Some b /\
    Plane.getitem p (ITuple [1; 0]) w = (Ok (Plane.Value (Bit b)), w).
Proof.
  intros w p.
  assert (Hwf : well_formed p w = true) by reflexivity.
  assert (H2 : (2 <= length (Plane.shape p))%nat) by (simpl; lia).
  assert (Hb : in_bounds (Plane.shape p) [1; 0]).
  { apply List.Forall2_cons; [simpl; lia|].
    apply List.Forall2_cons; [simpl; lia|]. apply List.Forall2_nil. }
  split; [exact Hwf|]. split; [exact H2|]. split; [exact Hb|].
  exact (getitem_reads_flattened_address p [1; 0] w Hwf H2 Hb).
Defined.

(** X5. Flattened addresses are valid and unique: for full coordinates in
    bounds, the flat index lies below the number of rows and the offset
    below the bit width, and two coordinates with the same flattened pair
    are the same coordinate. *)
Theorem flatten_injective (p : Plane.t) (cs1 cs2 : list Z) :
  in_bounds (Plane.shape p) cs1 -> in_bounds (Plane.shape p) cs2 ->
  Plane.shape p <> [] ->
  (exists i j, Plane.flatten p cs1 = Ok (i, j) /\
     0 <= i < Z.of_nat (prod_dims (but_last (Plane.shape p))) /\
     0 <= j < Z.of_nat (default 0%nat (last (Plane.shape p)))) /\
  (Plane.flatten p cs1 = Plane.flatten p cs2 -> cs1 = cs2).
Proof.
  intros H1 H2 Hs.
  destruct (snoc_but_last _ Hs) as (n & Es & Hln).
  assert (Hsplit : forall cs, in_bounds (Plane.shape p) cs ->
    exists c, cs = but_last cs ++ [c] /\ last cs = Some c /\
      in_bounds (but_last (Plane.shape p)) (but_last cs) /\
      0 <= c < Z.of_nat n /\
      Plane.flatten p cs
      = Ok (row_major_index (but_last (Plane.shape p)) (but_last cs), c)).
  { intros cs Hb.
    assert (Hlen : length cs = length (Plane.shape p)) by (by apply Forall2_length in Hb).
    assert (Hc : cs <> []).
    { intros ->. destruct (Plane.shape p); done. }
    destruct (snoc_but_last _ Hc) as (c & Ec & Hlc).
    exists c. split; [done|]. split; [done|].
    rewrite Es, Ec in Hb. apply in_bounds_snoc in Hb as [Hb Hcn].
    2:{ rewrite !length_but_last. lia. }
    split; [done|]. split; [done|]. by apply flatten_full_coordinate. }
  destruct (Hsplit _ H1) as (c1 & E1 & _ & B1 & Hc1 & F1).
  destruct (Hsplit _ H2) as (c2 & E2 & _ & B2 & Hc2 & F2).
  split.
  - eexists _, _. split; [exact F1|]. rewrite Hln. simpl.
    split; [by apply row_major_index_bound|done].
  - rewrite F1, F2. intros [= Hrm Hc]. rewrite E1, E2. subst c2. f_equal.
    by apply (row_major_index_inj (but_last (Plane.shape p))).
Qed.

Lemma flatten_injective_witness :
  let p := Plane.Make PyNone [2; 3; 4]%nat 4%nat in
  in_bounds (Plane.shape p) [1; 2; 0] /\ in_bounds (Plane.shape p) [1; 2; 0] /\
  Plane.shape p <> [] /\
  (Plane.flatten p [1; 2; 0] = Plane.flatten p [1; 2; 0] -> [1; 2; 0] = [1; 2; 0]).
Proof.
  intros p.
  assert (Hb : in_bounds (Plane.shape p) [1; 2; 0]).
  { repeat (apply List.Forall2_cons; [simpl; lia|]). apply List.Forall2_nil. }
  assert (Hs : Plane.shape p <> []) by discriminate.
  split; [exact Hb|]. split; [exact Hb|]. split; [exact Hs|].
  exact (proj2 (flatten_injective p [1; 2; 0] [1; 2; 0] Hb Hb Hs)).
Defined.

(** X6. When [flatten] fails: it raises IndexError exactly when the
    coordinate is empty or has more than one component beyond the shape;
    every other coordinate, shorter than the shape or not, in bounds or
    not, is flattened against the leading dimensions. *)
Theorem flatten_fails_iff (p : Plane.t) (cs : list Z) :
  (cs = [] \/ (length (Plane.shape p) + 1 < length cs)%nat ->
     Plane.flatten p cs = Raise IndexError) /\
  (cs <> [] -> (length cs <= length (Plane.shape p) + 1)%nat ->
     exists c, last cs = Some c /\
       Plane.flatten p cs
       = Ok (row_major_index (take (length cs - 1) (Plane.shape p)) (but_last cs), c)).
Proof.
  split.
  - intros [->|Hlong]; [done|].
    assert (Hc : cs <> []) by (intros ->; simpl in Hlong; lia).
    unfold Plane.flatten. rewrite length_but_last.
    destruct (length cs - 1)%nat as [|n] eqn:En; [lia|].
    unfold range. rewrite seq_S, rev_app_distr. simpl.
    unfold tuple_get.
    destruct (lookup_lt_is_Some_2 cs n) as [c Hcn]; [lia|]. rewrite Hcn.
    rewrite (lookup_ge_None_2 (Plane.shape p) n) by lia. done.
  - intros Hc Hlen.
    destruct (snoc_but_last _ Hc) as (c & Ec & Hlc).
    exists c. split; [done|].
    set (n := (length cs - 1)%nat).
    assert (Hn : length (but_last cs) = n) by apply length_but_last.
    pose proof (flatten_loop_prefix (but_last cs) (take n (Plane.shape p))
                  [c] (drop n (Plane.shape p)) 0 1) as Hloop.
    rewrite take_drop, <- Ec in Hloop.
    unfold Plane.flatten. rewrite Hloop.
    + unfold tuple_last. rewrite Hlc. f_equal. f_equal. lia.
    + rewrite length_take, Hn. lia.
Qed.

Lemma flatten_fails_iff_witness :
  Plane.flatten (Plane.Make PyNone [2; 3; 4]%nat 4%nat) [] = Raise IndexError /\
  Plane.flatten (Plane.Make PyNone [2; 3; 4]%nat 4%nat) [1; 1; 1; 1; 1]
    = Raise IndexError /\
  Plane.flatten (Plane.Make PyNone [2; 3; 4]%nat 4%nat) [1; 9] = Ok (1, 9).
Proof.
  pose proof (flatten_fails_iff (Plane.Make PyNone [2; 3; 4]%nat 4%nat) []) as [H1 _].
  pose proof (flatten_fails_iff (Plane.Make PyNone [2; 3; 4]%nat 4%nat) [1; 1; 1; 1; 1]) as [H2 _].
  pose proof (flatten_fails_iff (Plane.Make PyNone [2; 3; 4]%nat 4%nat) [1; 9]) as [_ H3].
  split; [apply H1; by left|]. split; [apply H2; right; simpl; lia|].
  destruct H3 as (c & Hc & H3); [done|simpl; lia|].
  rewrite H3. injection Hc as <-. reflexivity.
Defined.

(* --------------------------------------------------------------------- *)
(* 23. A newly constructed grid; materialization reads only               *)
(* --------------------------------------------------------------------- *)











(* --------------------------------------------------------------------- *)
(* 24. Randomization: one draw per row, and nothing else is touched       *)
(* --------------------------------------------------------------------- *)

Lemma draw_row_ok n w0 i :
  (1 <= n)%nat ->
  0 <= draw_value n w0 i < 2 ^ Z.of_nat n - 1 /\
  bits_of_string (zfill (drop2 (bin (draw_value n w0 i))) n)
    = Ok (draw_row n w0 i) /\
  length (draw_row n w0 i) = n /\
  bits_value (draw_row n w0 i) = draw_value n w0 i.
Proof.
  intros Hn. pose proof (pow2_minus_1_pos n Hn) as Hp.
  assert (Hv : 0 <= draw_value n w0 i < 2 ^ Z.of_nat n - 1).
  { unfold draw_value. apply Z.mod_pos_bound. lia. }
  split; [done|].
  destruct (encode_row n (draw_value n w0 i) Hn)
    as (r & k & d & Hbits & _ & _ & Hlen & Hval); [lia|].
  unfold draw_row. rewrite Hbits. done.
Qed.

Lemma random_row_draw n w :
  (1 <= n)%nat ->
  Plane.random_row (2 ^ Z.of_nat n - 1) n w
  = (Ok (length (rows w)),
     World (rows w ++ [draw_row n w 0]) (bufs w) (entropy w) (S (drawn w))).
Proof.
  intros Hn. pose proof (pow2_minus_1_pos n Hn) as Hp.
  destruct (draw_row_ok n w 0 Hn) as (_ & Hbits & _).
  unfold Plane.random_row, Plane.gen, randrange, mbind, M_bind.
  destruct (Z.leb_spec (2 ^ Z.of_nat n - 1) 0) as [|_]; [lia|].
  simpl. unfold lift.
  unfold draw_value in Hbits. rewrite Nat.add_0_r in Hbits.
  rewrite Z.sub_0_r, Z.add_0_l, Hbits.
  unfold draw_row, draw_value. by rewrite Nat.add_0_r, Hbits.
Qed.

Lemma randomized_step n v w0 buf0 k :
  (1 <= n)%nat -> (k < nd_size v)%nat ->
  bufs w0 !! nd_base v = Some buf0 ->
  (nd_offset v + nd_size v <= length buf0)%nat ->
  (a ← Plane.random_row (2 ^ Z.of_nat n - 1) n; obj_flat_set (Arr v) k a)
    (randomized_world n v w0 buf0 k)
  = (Ok tt, randomized_world n v w0 buf0 (S k)).
Proof.
  intros Hn Hk Hb Hfit.
  assert (Hbase : (nd_base v < length (bufs w0))%nat) by (by eapply lookup_lt_Some).
  erewrite bind_ok by (by apply random_row_draw).
  unfold obj_flat_set, flat_set. simpl.
  destruct (Nat.ltb_spec k (nd_size v)) as [_|]; [|lia].
  rewrite list_lookup_insert_eq by done.
  rewrite !length_app, length_take, length_fmap, !length_seq, length_drop.
  destruct (Nat.ltb_spec (nd_offset v + k)
              (nd_offset v `min` length buf0 + (k + (length buf0 - (nd_offset v + k)))))
    as [_|]; [|lia].
  unfold randomized_world. cbn [rows bufs entropy drawn]. f_equal. f_equal.
  - rewrite <- app_assoc. f_equal. rewrite seq_S, fmap_app. f_equal.
    change (draw_row n w0 <$> [(0 + k)%nat]) with [draw_row n w0 k]. f_equal.
    unfold draw_row, draw_value. cbn [entropy drawn].
    by replace (drawn w0 + k + 0)%nat with (drawn w0 + k)%nat by lia.
  - rewrite list_insert_insert_eq. f_equal.
    rewrite insert_app_r_alt by (rewrite length_take; lia).
    rewrite length_take. f_equal.
    replace (nd_offset v + k - nd_offset v `min` length buf0)%nat with k by lia.
    rewrite insert_app_r_alt by (rewrite length_fmap, length_seq; lia).
    rewrite length_fmap, length_seq, Nat.sub_diag.
    rewrite seq_S, fmap_app, <- (assoc_L app). f_equal.
    destruct (lookup_lt_is_Some_2 buf0 (nd_offset v + k)) as [x Hx]; [lia|].
    rewrite (drop_S _ x _ Hx). simpl.
    rewrite length_fmap, length_seq.
    by replace (S (nd_offset v + k)) with (nd_offset v + S k)%nat by lia.
  - lia.
Qed.

(** [randomize] on a well-formed array grid, in closed form. *)
Lemma randomize_array_closed p w v buf0 :
  well_formed p w = true -> Plane.grid p = Arr v -> Plane.shape p <> [] ->
  (1 <= Plane.N p)%nat -> bufs w !! nd_base v = Some buf0 ->
  Plane.randomize p w
  = (Ok p, randomized_world (Plane.N p) v w buf0 (nd_size v)).
Proof.
  intros Hwf Hg Hne Hn Hb.
  destruct (well_formed_inv _ _ Hwf) as (_ & _ & _ & Hsh).
  rewrite Hg in Hsh. destruct Hsh as [H1 _].
  destruct (well_formed_window p w v Hwf Hg) as (buf & Hbuf & Hfit).
  assert (buf = buf0) as -> by congruence.
  assert (H0 : randomized_world (Plane.N p) v w buf0 0 = w).
  { unfold randomized_world. simpl.
    rewrite app_nil_r, Nat.add_0_r, take_drop, list_insert_id by done.
    rewrite Nat.add_0_r. by destruct w. }
  unfold Plane.randomize.
  destruct (Plane.shape p) as [|d0 [|d1 sh]] eqn:Es; try done.
  simpl. rewrite Hg. unfold range. simpl get_size.
  erewrite bind_ok by reflexivity.
  rewrite <- H0 at 1.
  erewrite bind_ok.
  2:{ apply (for_each_seq_closed _ (randomized_world (Plane.N p) v w buf0)).
      intros k Hk. apply randomized_step; try done. lia. }
  done.
Qed.

Lemma window_replace_lookup {A} (b s : list A) o t :
  (o + length s <= length b)%nat ->
  ~ (o <= t < o + length s)%nat ->
  (take o b ++ s ++ drop (o + length s) b) !! t = b !! t.
Proof.
  intros Hfit Ht.
  destruct (decide (t < o)%nat) as [Hlt|Hge].
  - rewrite lookup_app_l by (rewrite length_take; lia).
    by rewrite lookup_take_lt.
  - rewrite lookup_app_r by (rewrite length_take; lia).
    rewrite length_take.
    rewrite lookup_app_r by lia.
    rewrite lookup_drop. f_equal. lia.
Qed.

Lemma window_replace_cells {A} (b s : list A) o :
  (o + length s <= length b)%nat ->
  take (length s) (drop o (take o b ++ s ++ drop (o + length s) b)) = s.
Proof.
  intros Hfit.
  rewrite drop_app_length' by (rewrite length_take; lia).
  by rewrite take_app_length.
Qed.

(** X9. [randomize] draws once for every row, in storage order: on a
    well-formed grid of non-empty shape and width [N >= 1] it completes,
    advances the generator by exactly as many draws as the grid has rows,
    and leaves in cell [i] the [N]-bit row that denotes draw number [i],
    a value of [0, 2^N - 1). No two rows share a draw. *)
Theorem randomize_draws_once_per_row (p : Plane.t) (w : world) :
  well_formed p w = true -> Plane.shape p <> [] -> (1 <= Plane.N p)%nat ->
  exists p' w',
    Plane.randomize p w = (Ok p', w') /\
    entropy w' = entropy w /\
    drawn w' = (drawn w + prod_dims (but_last (Plane.shape p)))%nat /\
    storage_rows p' w'
    = draw_row (Plane.N p) w <$> range (prod_dims (but_last (Plane.shape p))) /\
    forall i,
      length (draw_row (Plane.N p) w i) = Plane.N p /\
      bits_value (draw_row (Plane.N p) w i)
      = entropy w (drawn w + i)%nat mod (2 ^ Z.of_nat (Plane.N p) - 1).
Proof.
  intros Hwf Hne Hn.
  assert (Hrow : forall i,
    length (draw_row (Plane.N p) w i) = Plane.N p /\
    bits_value (draw_row (Plane.N p) w i)
    = entropy w (drawn w + i)%nat mod (2 ^ Z.of_nat (Plane.N p) - 1)).
  { intros i. destruct (draw_row_ok (Plane.N p) w i Hn) as (_ & _ & H1 & H2). done. }
  destruct (well_formed_inv _ _ Hwf) as (_ & _ & _ & Hsh).
  destruct (Plane.grid p) as [| |a|v] eqn:Hg; try done.
  - exists (Plane.Make (Bits (length (rows w))) (Plane.shape p) (Plane.N p)),
      (World (rows w ++ [draw_row (Plane.N p) w 0]) (bufs w) (entropy w) (S (drawn w))).
    destruct (Plane.shape p) as [|n [|? ?]] eqn:Es; try done.
    split.
    { unfold Plane.randomize. rewrite Es. simpl.
      erewrite bind_ok by (by apply random_row_draw). done. }
    split; [done|]. split; [simpl; unfold prod_dims; simpl; lia|].
    split; [|done].
    unfold storage_rows, cells, row_of_cell, cells. simpl.
    by rewrite list_lookup_middle.
  - destruct Hsh as [_ Hd].
    destruct (well_formed_window p w v Hwf Hg) as (buf0 & Hbuf & Hfit).
    exists p, (randomized_world (Plane.N p) v w buf0 (nd_size v)).
    split; [by apply randomize_array_closed|].
    split; [done|].
    assert (Hsz : nd_size v = prod_dims (but_last (Plane.shape p))).
    { unfold nd_size. by rewrite Hd. }
    split; [simpl; by rewrite Hsz|]. split; [|done].
    assert (Hbase : (nd_base v < length (bufs w))%nat) by (by eapply lookup_lt_Some).
    assert (Hcells : cells p (randomized_world (Plane.N p) v w buf0 (nd_size v))
                     = Some <$> seq (length (rows w)) (nd_size v)).
    { unfold cells. rewrite Hg. simpl.
      rewrite list_lookup_insert_eq by done.
      pose proof (window_replace_cells buf0
        (Some <$> seq (length (rows w)) (nd_size v)) (nd_offset v)) as Hw.
      rewrite length_fmap, length_seq in Hw. by apply Hw. }
    unfold storage_rows, range.
    rewrite Hcells, length_fmap, length_seq, <- Hsz.
    apply list_eq. intros i. rewrite !list_lookup_fmap.
    destruct (decide (i < nd_size v)%nat) as [Hi|Hi].
    + rewrite lookup_seq_lt by done. simpl. f_equal.
      unfold row_of_cell. rewrite Hcells.
      rewrite list_lookup_fmap, lookup_seq_lt by done. simpl.
      rewrite lookup_app_r by lia.
      replace (length (rows w) + i - length (rows w))%nat with i by lia.
      rewrite list_lookup_fmap, lookup_seq_lt by done. done.
    + rewrite lookup_seq_ge by lia. done.
Qed.

Lemma randomize_draws_once_per_row_witness :
  let w := World [[false; false]; [true; true]]
                 [[Some 0%nat; Some 1%nat]] (fun k => Z.of_nat k + 1) 0 in
  let p := Plane.Make (Arr (NdArray 0%nat 0%nat [2%nat])) [2; 2]%nat 2%nat in
  well_formed p w = true /\ Plane.shape p <> [] /\ (1 <= Plane.N p)%nat /\
  exists p' w',
    Plane.randomize p w = (Ok p', w') /\
    drawn w' = 2%nat /\
    storage_rows p' w' = [[false; true]; [true; false]].
Proof.
  intros w p.
  assert (Hwf : well_formed p w = true) by reflexivity.
  assert (Hne : Plane.shape p <> []) by discriminate.
  assert (Hn : (1 <= Plane.N p)%nat) by (simpl; lia).
  split; [exact Hwf|]. split; [exact Hne|]. split; [exact Hn|].
  destruct (randomize_draws_once_per_row p w Hwf Hne Hn)
    as (p' & w' & H1 & _ & H2 & H3 & _).
  exists p', w'. split; [exact H1|]. split; [exact H2|]. exact H3.
Defined.

(** X10. Randomizing a view rewrites the cells of its window and nothing
    else: the view's [randomize] keeps every existing row object, every
    other buffer, and every cell of the parent outside the window of the
    view, so the rest of the parent reads as before. *)
Theorem randomize_view_keeps_the_rest (p v : Plane.t) (cs : list Z) (w : world) :
  well_formed p w = true ->
  Plane.getitem p (ITuple cs) w = (Ok (Plane.View v), w) ->
  (1 <= Plane.N p)%nat ->
  exists vp vv w',
    Plane.grid p = Arr vp /\ Plane.grid v = Arr vv /\
    Plane.randomize v w = (Ok v, w') /\
    (forall (a : addr) (r : bitarray),
       rows w !! a = Some r -> rows w' !! a = Some r) /\
    (forall b, b <> nd_base vp -> bufs w' !! b = bufs w !! b) /\
    (forall j, (j < nd_size vp)%nat ->
       ~ (nd_offset vv <= nd_offset vp + j < nd_offset vv + nd_size vv)%nat ->
       cells p w' !! j = cells p w !! j /\
       row_of_cell p w' j = row_of_cell p w j).
Proof.
  intros Hwf Hget Hn.
  destruct (getitem_view_inv p w cs v w Hwf Hget)
    as (vp & k & Hg & Hlen & Hk & Hv & _).
  assert (Hwfv : well_formed v w = true).
  { rewrite Hv. by apply view_well_formed. }
  set (vv := NdArray (nd_base vp) (nd_offset vp + k)
               (drop (length cs) (but_last (Plane.shape p)))).
  assert (Hgv : Plane.grid v = Arr vv) by (by rewrite Hv).
  assert (HNv : Plane.N v = Plane.N p) by (by rewrite Hv).
  assert (Hnev : Plane.shape v <> []).
  { rewrite Hv. simpl. by destruct (drop _ _). }
  destruct (well_formed_window p w vp Hwf Hg) as (buf0 & Hbuf & Hfit).
  destruct (well_formed_window v w vv Hwfv Hgv) as (buf0' & Hbuf' & Hfitv).
  assert (buf0' = buf0) as -> by (simpl in Hbuf'; congruence).
  exists vp, vv, (randomized_world (Plane.N v) vv w buf0 (nd_size vv)).
  split; [done|]. split; [done|]. split.
  { apply randomize_array_closed; try done. lia. }
  assert (Hbase : (nd_base vp < length (bufs w))%nat) by (by eapply lookup_lt_Some).
  split; [|split].
  - intros a r Hr. simpl. by apply lookup_app_l_Some.
  - intros b Hb. simpl. by rewrite list_lookup_insert_ne.
  - intros j Hj Hout.
    assert (Hc : cells p (randomized_world (Plane.N v) vv w buf0 (nd_size vv)) !! j
                 = cells p w !! j).
    { unfold cells. rewrite Hg. simpl. rewrite Hbuf.
      rewrite list_lookup_insert_eq by done.
      rewrite !lookup_take_lt, !lookup_drop by done.
      pose proof (window_replace_lookup buf0
        (Some <$> seq (length (rows w)) (nd_size vv)) (nd_offset vp + k)
        (nd_offset vp + j)) as Hw.
      rewrite length_fmap, length_seq in Hw. apply Hw.
      - exact Hfitv.
      - exact Hout. }
    split; [done|]. unfold row_of_cell. rewrite Hc.
    destruct (well_formed_cell p w vp j Hwf Hg Hj)
      as (buf & a & r & _ & _ & Hcj & Hr & _).
    rewrite Hcj. simpl. rewrite Hr.
    by rewrite (lookup_app_l_Some _ _ _ _ Hr).
Qed.

Lemma randomize_view_keeps_the_rest_witness :
  let w := World (repeat (zeros 2) 4)
                 [[Some 0%nat; Some 1%nat; Some 2%nat; Some 3%nat]]
                 (fun _ => 2) 0 in
  let p := Plane.Make (Arr (NdArray 0%nat 0%nat [2; 2]%nat)) [2; 2; 2]%nat 2%nat in
  let v := Plane.Make (Arr (NdArray 0%nat 2%nat [2%nat])) [2; 2]%nat 2%nat in
  well_formed p w = true /\
  Plane.getitem p (ITuple [1]) w = (Ok (Plane.View v), w) /\
  (1 <= Plane.N p)%nat /\
  exists w', Plane.randomize v w = (Ok v, w') /\
             row_of_cell p w' 0 = row_of_cell p w 0.
Proof.
  intros w p v.
  assert (Hwf : well_formed p w = true) by reflexivity.
  assert (Hget : Plane.getitem p (ITuple [1]) w = (Ok (Plane.View v), w))
    by reflexivity.
  assert (Hn : (1 <= Plane.N p)%nat) by (simpl; lia).
  split; [exact Hwf|]. split; [exact Hget|]. split; [exact Hn|].
  destruct (randomize_view_keeps_the_rest p v [1] w Hwf Hget Hn)
    as (vp & vv & w' & Hg & Hgv & Hr & _ & _ & Hrest).
  exists w'. split; [exact Hr|].
  injection Hg as <-. injection Hgv as <-.
  apply (Hrest 0%nat); simpl; unfold nd_size, prod_dims; simpl; lia.
Defined.

(* --------------------------------------------------------------------- *)
(* 25. Subscripts that are lists                                          *)
(* --------------------------------------------------------------------- *)

Lemma list_comp_bits (a : addr) (r : bitarray) w : forall xs,
  rows w !! a = Some r ->
  (Forall (fun x => - Z.of_nat (length r) <= x < Z.of_nat (length r)) xs ->
     exists bs : list bool,
       list_comp xs (fun x => subscript (Bits a) (IInt x)) w
       = (Ok (Bit <$> bs), w) /\
       Forall2 (fun x b => subscript (Bits a) (IInt x) w = (Ok (Bit b), w)) xs bs) /\
  (Exists (fun x => x < - Z.of_nat (length r) \/ Z.of_nat (length r) <= x) xs ->
     list_comp xs (fun x => subscript (Bits a) (IInt x)) w
     = (Raise IndexError, w)).
Proof.
  intros xs Hr. induction xs as [|x xs [IH1 IH2]].
  - split; [|by inv 1]. intros _. exists []. split; [done|constructor].
  - split.
    + intros Hall. apply Forall_cons in Hall as [Hx Hall].
      destruct (IH1 Hall) as (bs & Hbs & H2).
      destruct (norm_index x (length r)) as [k|] eqn:Hk.
      2:{ apply norm_index_None in Hk. lia. }
      destruct (subscript_bits a x r k w Hr Hk) as (b & _ & Hsub).
      exists (b :: bs). split; [|by constructor].
      simpl. erewrite bind_ok by exact Hsub.
      erewrite bind_ok by exact Hbs. done.
    + intros Hex. simpl.
      destruct (norm_index x (length r)) as [k|] eqn:Hk.
      * destruct (subscript_bits a x r k w Hr Hk) as (b & _ & Hsub).
        erewrite bind_ok by exact Hsub.
        apply Exists_cons in Hex as [Hx|Hex].
        { apply norm_index_Some in Hk. lia. }
        erewrite bind_raise; [done|]. by apply IH2.
      * erewrite bind_raise; [done|].
        by apply (subscript_bits_out_of_range a x r).
Qed.

(** X11. On a one-dimensional grid a list subscript reads the listed
    offsets one by one: when every offset lies in [-N, N) the result is the
    list of the bits that the integer subscripts read, in the order of the
    list and as many as the list has entries (an offset may occur twice);
    when some offset is out of range the subscript raises IndexError. The
    store is not written. *)
Theorem getitem_list_reads_each_offset (p : Plane.t) (xs : list Z) (w : world) :
  well_formed p w = true -> length (Plane.shape p) = 1%nat ->
  (Forall (fun x => - Z.of_nat (Plane.N p) <= x < Z.of_nat (Plane.N p)) xs ->
     exists bs : list bool,
       getitem_list p xs w = (Ok (Values (Bit <$> bs)), w) /\
       length bs = length xs /\
       forall i x, xs !! i = Some x ->
         exists b, bs !! i = Some b /\
           Plane.getitem p (IInt x) w = (Ok (Plane.Value (Bit b)), w)) /\
  (Exists (fun x => x < - Z.of_nat (Plane.N p) \/ Z.of_nat (Plane.N p) <= x) xs ->
     getitem_list p xs w = (Raise IndexError, w)).
Proof.
  intros Hwf H1.
  destruct (well_formed_inv _ _ Hwf) as (_ & _ & Hrows & Hsh).
  destruct (Plane.grid p) as [| |a|v] eqn:Hg; try done; [|tauto].
  unfold rows_have_width, grid_rows, cells in Hrows. rewrite Hg in Hrows.
  simpl in Hrows. apply Forall_cons in Hrows as [(r & Hr & Hlr) _].
  destruct (list_comp_bits a r w xs Hr) as [Hok Hbad]. rewrite Hlr in Hok, Hbad.
  unfold getitem_list. rewrite H1, Hg. simpl. split.
  - intros Hall. destruct (Hok Hall) as (bs & Hbs & H2).
    exists bs. split; [by erewrite bind_ok by exact Hbs|].
    split; [symmetry; by eapply Forall2_length|].
    intros i x Hx.
    destruct (Forall2_lookup_l _ _ _ _ _ H2 Hx) as (b & Hb & Hsub).
    exists b. split; [done|].
    unfold Plane.getitem. rewrite H1, Hg. simpl.
    by erewrite bind_ok by exact Hsub.
  - intros Hex. erewrite bind_raise; [done|]. by apply Hbad.
Qed.

Lemma getitem_list_reads_each_offset_witness :
  let w := World [[true; false; true]] [] (fun _ => 0) 0 in
  let p := Plane.Make (Bits 0%nat) [3%nat] 3%nat in
  well_formed p w = true /\ length (Plane.shape p) = 1%nat /\
  getitem_list p [0; 3] w = (Raise IndexError, w) /\
  exists bs : list bool,
    getitem_list p [2; -1; 1; 2] w = (Ok (Values (Bit <$> bs)), w) /\
    length bs = 4%nat.
Proof.
  intros w p.
  assert (Hwf : well_formed p w = true) by reflexivity.
  assert (H1 : length (Plane.shape p) = 1%nat) by reflexivity.
  split; [exact Hwf|]. split; [exact H1|].
  destruct (getitem_list_reads_each_offset p [0; 3] w Hwf H1) as [_ Hbad].
  destruct (getitem_list_reads_each_offset p [2; -1; 1; 2] w Hwf H1) as [Hok _].
  split.
  - apply Hbad. apply Exists_cons_tl, Exists_cons_hd. simpl. lia.
  - destruct Hok as (bs & Hbs & Hlen & _).
    + repeat (apply Forall_cons; split; [simpl; lia|]). constructor.
    + exists bs. split; [exact Hbs|exact Hlen].
Defined.

Lemma storage_rows_frame p w w2 :
  well_formed p w = true ->
  cells p w2 = cells p w ->
  (forall (a : addr) (r : bitarray), rows w !! a = Some r -> rows w2 !! a = Some r) ->
  storage_rows p w2 = storage_rows p w.
Proof.
  intros Hwf Hc Hr. unfold storage_rows. rewrite Hc.
  apply list_fmap_ext. intros i j Hj.
  unfold range in Hj. apply lookup_seq in Hj as [Ej Hlt]. simpl in Ej. subst j.
  unfold row_of_cell. rewrite Hc.
  destruct (well_formed_inv _ _ Hwf) as (_ & _ & Hrows & _).
  unfold rows_have_width, grid_rows in Hrows.
  rewrite Forall_fmap, Forall_lookup in Hrows.
  destruct (lookup_lt_is_Some_2 (cells p w) i Hlt) as [c Hcj].
  destruct (Hrows _ _ Hcj) as (r & Hrc & _). rewrite Hcj.
  destruct c as [a|]; [|done]. simpl in Hrc.
  by rewrite Hrc, (Hr _ _ Hrc).
Qed.

Lemma norm_index_wrap_value x d :
  - Z.of_nat d <= x < Z.of_nat d ->
  norm_index x d = Some (Z.to_nat (wrap x d)).
Proof.
  intros Hx. destruct (norm_index x d) as [i|] eqn:Hi.
  2:{ apply norm_index_None in Hi. lia. }
  apply norm_index_Some in Hi as (_ & _ & Hv). f_equal.
  unfold wrap. destruct (x <? 0) eqn:E1; simpl.
  - apply Z.ltb_lt in E1.
    destruct (Z.leb_spec (- Z.of_nat d) x); lia.
  - lia.
Qed.

Section ListSubscript.
Variables (p : Plane.t) (w : world) (vp : ndarray) (xs : list Z).
Variables (d : nat) (rest : list nat) (buf : list (option addr)).
Hypothesis Hwf : well_formed p w = true.
Hypothesis Hg : Plane.grid p = Arr vp.
Hypothesis Hd : nd_dims vp = d :: rest.
Hypothesis Hbuf : bufs w !! nd_base vp = Some buf.
Hypothesis Hxs : Forall (fun x => - Z.of_nat d <= x < Z.of_nat d) xs.

Local Abbreviation blk := (list_block vp rest buf).
Local Abbreviation idxs := (list_idxs d xs).
Local Abbreviation lw := (list_world w vp d rest buf xs).
Local Abbreviation lv := (list_view p w rest xs).

Lemma list_fit : (nd_offset vp + d * prod_dims rest <= length buf)%nat.
Proof.
  destruct (well_formed_window p w vp Hwf Hg) as (buf' & Hb' & Hfit).
  assert (buf' = buf) as -> by congruence.
  unfold nd_size in Hfit. rewrite Hd in Hfit. done.
Qed.

Lemma list_idxs_bound : Forall (fun i => (i < d)%nat) idxs.
Proof.
  unfold list_idxs. apply Forall_fmap. eapply Forall_impl; [exact Hxs|].
  intros x Hx. simpl.
  pose proof (norm_index_wrap_value x d Hx) as Hn.
  apply norm_index_Some in Hn. lia.
Qed.

Lemma list_blocks_uniform :
  Forall (fun b => length b = prod_dims rest) (blk <$> idxs).
Proof.
  apply Forall_fmap. eapply Forall_impl; [exact list_idxs_bound|].
  intros i Hi. simpl in *. unfold list_block.
  pose proof list_fit as Hfit.
  assert ((i + 1) * prod_dims rest <= d * prod_dims rest)%nat
    by (apply Nat.mul_le_mono_r; lia).
  rewrite length_take, length_drop. lia.
Qed.

Lemma length_list_buffer :
  length (concat (blk <$> idxs)) = (length xs * prod_dims rest)%nat.
Proof.
  rewrite (length_concat_uniform (prod_dims rest)) by apply list_blocks_uniform.
  unfold list_idxs. by rewrite !length_fmap.
Qed.

(** The cell of the new buffer at position [k] of block [i] is the cell of
    the parent at position [k] of the block that [xs[i]] selects. *)
Lemma list_buffer_lookup i x k :
  xs !! i = Some x -> (k < prod_dims rest)%nat ->
  concat (blk <$> idxs) !! (i * prod_dims rest + k)%nat
  = cells p w !! (Z.to_nat (wrap x d) * prod_dims rest + k)%nat
  /\ (Z.to_nat (wrap x d) * prod_dims rest + k < nd_size vp)%nat.
Proof.
  intros Hx Hk.
  assert (Hn : (Z.to_nat (wrap x d) < d)%nat).
  { pose proof list_idxs_bound as Hb. rewrite Forall_lookup in Hb.
    apply (Hb i). unfold list_idxs. by rewrite list_lookup_fmap, Hx. }
  pose proof list_fit as Hfit.
  assert (Hsz : (Z.to_nat (wrap x d) * prod_dims rest + k < nd_size vp)%nat).
  { unfold nd_size. rewrite Hd.
    change (prod_dims (d :: rest)) with (d * prod_dims rest)%nat. nia. }
  split; [|done].
  rewrite (concat_lookup_uniform (prod_dims rest)); [|apply list_blocks_uniform|done].
  unfold list_idxs. rewrite !list_lookup_fmap, Hx. simpl.
  unfold list_block. rewrite lookup_take_lt, lookup_drop by done.
  unfold cells. rewrite Hg, Hbuf.
  rewrite lookup_take_lt, lookup_drop by done. f_equal. lia.
Qed.

Lemma nd_take_list :
  nd_take vp xs w = (Ok (Arr (NdArray (length (bufs w)) 0 (length xs :: rest))),
                     lw).
Proof.
  unfold nd_take. rewrite Hd.
  assert (Hm : mapM (fun x => norm_index x d) xs = Some idxs).
  { apply mapM_Some_2. unfold list_idxs. apply Forall2_fmap_r, Forall_Forall2_diag.
    eapply Forall_impl; [exact Hxs|]. intros x Hx. by apply norm_index_wrap_value. }
  rewrite Hm, Hbuf. done.
Qed.

Lemma cells_list_view :
  cells lv lw = concat (blk <$> idxs).
Proof.
  unfold cells, list_view, list_world. simpl.
  rewrite list_lookup_middle by done. rewrite drop_0.
  apply take_ge. rewrite length_list_buffer. unfold nd_size. simpl.
  change (prod_dims (length xs :: rest)) with (length xs * prod_dims rest)%nat.
  lia.
Qed.

Lemma cells_parent_list_world : cells p lw = cells p w.
Proof.
  unfold cells. rewrite Hg. simpl.
  by rewrite (lookup_app_l_Some _ _ _ _ Hbuf), Hbuf.
Qed.

Lemma list_view_well_formed : well_formed lv lw = true.
Proof.
  destruct (well_formed_inv _ _ Hwf) as (HN & _ & _ & Hsh).
  rewrite Hg in Hsh. destruct Hsh as [_ Hdp].
  apply well_formed_intro.
  - unfold list_view. cbn [Plane.shape Plane.N].
    by rewrite width_snoc.
  - rewrite cells_list_view, length_list_buffer. unfold list_view.
    cbn [Plane.shape]. by rewrite but_last_snoc.
  - unfold rows_have_width, grid_rows. rewrite cells_list_view.
    rewrite Forall_fmap, Forall_lookup. intros t c Hc.
    assert (Ht : (t < length xs * prod_dims rest)%nat).
    { apply lookup_lt_Some in Hc. by rewrite length_list_buffer in Hc. }
    assert (HP : (0 < prod_dims rest)%nat) by nia.
    set (i := (t / prod_dims rest)%nat). set (k := (t mod prod_dims rest)%nat).
    assert (Et : t = (i * prod_dims rest + k)%nat).
    { unfold i, k. rewrite Nat.mul_comm. apply Nat.div_mod_eq. }
    assert (Hk : (k < prod_dims rest)%nat) by (apply Nat.mod_upper_bound; lia).
    assert (Hi : (i < length xs)%nat).
    { unfold i. apply Nat.Div0.div_lt_upper_bound. lia. }
    destruct (lookup_lt_is_Some_2 xs i Hi) as [x Hx].
    destruct (list_buffer_lookup i x k Hx Hk) as [Hlk Hsz].
    rewrite <- Et, Hc in Hlk.
    destruct (well_formed_cell p w vp _ Hwf Hg Hsz)
      as (buf' & a & r & _ & _ & Hcell & Hr & Hlr).
    assert (c = Some a) as -> by congruence.
    simpl. exists r. done.
  - unfold list_view. cbn [Plane.shape Plane.grid]. rewrite length_app.
    split; [simpl; lia|]. by rewrite but_last_snoc.
  - unfold window_ok, list_view, list_world. simpl.
    rewrite list_lookup_middle by done. apply Nat.leb_le.
    rewrite length_list_buffer. unfold nd_size. simpl.
    change (prod_dims (length xs :: rest)) with (length xs * prod_dims rest)%nat.
    lia.
Qed.

Lemma list_shape : Plane.shape p = (d :: rest) ++ [Plane.N p].
Proof.
  destruct (well_formed_inv _ _ Hwf) as (HN & _ & _ & Hsh).
  rewrite Hg in Hsh. destruct Hsh as [_ Hdp].
  assert (Hne : Plane.shape p <> []).
  { intros E. rewrite E in Hdp. rewrite Hd in Hdp. done. }
  destruct (snoc_but_last _ Hne) as (n & E & _).
  rewrite <- Hdp, Hd in E. rewrite E in HN. rewrite width_snoc in HN.
  by rewrite HN.
Qed.

Lemma getitem_list_array : getitem_list p xs w = (Ok (Sub lv), lw).
Proof.
  unfold getitem_list. rewrite list_shape, length_app.
  replace (length (d :: rest) + length [Plane.N p] =? 1)%nat with false
    by (symmetry; apply Nat.eqb_neq; simpl; lia).
  rewrite Hg. simpl subscript_list.
  rewrite (bind_ok _ _ _ _ _ nd_take_list).
  unfold try_except. simpl. unfold list_view.
  change (length xs :: rest ++ [Plane.N p])
    with ((length xs :: rest) ++ [Plane.N p]).
  by rewrite width_snoc.
Qed.

Lemma getitem_list_out_of_range :
  Exists (fun x => x < - Z.of_nat d \/ Z.of_nat d <= x) xs ->
  getitem_list p xs w = (Raise IndexError, w).
Proof.
  intros Hex. unfold getitem_list. rewrite list_shape, length_app.
  replace (length (d :: rest) + length [Plane.N p] =? 1)%nat with false
    by (symmetry; apply Nat.eqb_neq; simpl; lia).
  rewrite Hg. simpl subscript_list.
  erewrite bind_raise; [done|].
  unfold nd_take. rewrite Hd.
  destruct (mapM (fun x => norm_index x d) xs) as [l|] eqn:Hm; [|done].
  apply mapM_Some_1 in Hm. apply Exists_exists in Hex as (x & Hin & Hx).
  apply list_elem_of_lookup in Hin as [i Hi].
  destruct (Forall2_lookup_l _ _ _ _ _ Hm Hi) as (k & _ & Hk).
  apply norm_index_Some in Hk. lia.
Qed.

End ListSubscript.

(** X12. On a grid of two or more dimensions a list subscript selects
    blocks along the first dimension into a new array. When every entry of
    the list lies in [-d, d), for [d] the first dimension, the result is a
    plane of shape [len(xs) :: tail shape] and the width of the parent that
    satisfies the invariants of the data model; the only change to the store
    is one new buffer at its end, so the parent keeps its cells; and cell
    [k] of block [i] of the result is the very cell (the same row object)
    that the parent holds at position [k] of the block that [xs[i]] names,
    negative entries counting from the end. When some entry is out of range
    the subscript raises IndexError and the store is unchanged. *)
Theorem getitem_list_copies_blocks (p : Plane.t) (w : world) (vp : ndarray)
    (d : nat) (rest : list nat) (xs : list Z) :
  well_formed p w = true -> Plane.grid p = Arr vp -> nd_dims vp = d :: rest ->
  (Forall (fun x => - Z.of_nat d <= x < Z.of_nat d) xs ->
     exists (v : Plane.t) (w' : world) (buf : list (option addr)),
       getitem_list p xs w = (Ok (Sub v), w') /\
       Plane.shape v = length xs :: tail (Plane.shape p) /\
       Plane.N v = Plane.N p /\
       well_formed v w' = true /\
       rows w' = rows w /\ bufs w' = bufs w ++ [buf] /\
       cells p w' = cells p w /\
       forall i x k, xs !! i = Some x -> (k < prod_dims rest)%nat ->
         cells v w' !! (i * prod_dims rest + k)%nat
         = cells p w !! (Z.to_nat (wrap x d) * prod_dims rest + k)%nat) /\
  (Exists (fun x => x < - Z.of_nat d \/ Z.of_nat d <= x) xs ->
     getitem_list p xs w = (Raise IndexError, w)).
Proof.
  intros Hwf Hg Hd.
  destruct (well_formed_window p w vp Hwf Hg) as (buf & Hbuf & _).
  split.
  - intros Hxs.
    exists (list_view p w rest xs), (list_world w vp d rest buf xs),
           (concat (list_block vp rest buf <$> list_idxs d xs)).
    split; [by apply getitem_list_array|].
    split.
    { rewrite (list_shape p w vp d rest Hwf Hg Hd). done. }
    split; [done|].
    split; [by eapply list_view_well_formed|].
    split; [done|]. split; [done|].
    split; [by eapply cells_parent_list_world|].
    intros i x k Hx Hk.
    rewrite (cells_list_view p w vp xs d rest buf Hwf Hg Hd Hbuf Hxs).
    by apply (list_buffer_lookup p w vp xs d rest buf Hwf Hg Hd Hbuf Hxs).
  - intros Hex. by eapply getitem_list_out_of_range.
Qed.

Lemma getitem_list_copies_blocks_witness :
  let w := World [[true; false]; [false; true]; [true; true]]
                 [[Some 0%nat; Some 1%nat; Some 2%nat]] (fun _ => 0) 0 in
  let p := Plane.Make (Arr (NdArray 0%nat 0%nat [3%nat])) [3%nat; 2%nat] 2%nat in
  well_formed p w = true /\
  getitem_list p [1; 3] w = (Raise IndexError, w) /\
  exists (v : Plane.t) (w' : world),
    getitem_list p [-1; 0; -1] w = (Ok (Sub v), w') /\
    Plane.shape v = [3%nat; 2%nat] /\
    cells v w' !! 0%nat = cells p w !! 2%nat.
Proof.
  intros w p.
  assert (Hwf : well_formed p w = true) by reflexivity.
  split; [exact Hwf|].
  destruct (getitem_list_copies_blocks p w (NdArray 0%nat 0%nat [3%nat]) 3%nat [] [1; 3]
              Hwf eq_refl eq_refl) as [_ Hbad].
  destruct (getitem_list_copies_blocks p w (NdArray 0%nat 0%nat [3%nat]) 3%nat [] [-1; 0; -1]
              Hwf eq_refl eq_refl) as [Hok _].
  split.
  - apply Hbad. apply Exists_cons_tl, Exists_cons_hd. simpl. lia.
  - destruct Hok as (v & w' & buf & Hrun & Hsh & _ & _ & _ & _ & _ & Hcell).
    + repeat (apply Forall_cons; split; [simpl; lia|]). constructor.
    + exists v, w'. split; [exact Hrun|]. split; [exact Hsh|].
      exact (Hcell 0%nat (-1) 0%nat eq_refl (le_n 1)).
Defined.

(** X13. The plane that a list subscript returns is detached from its
    parent: randomizing it (width [N >= 1]) completes and leaves every cell
    and every bit row of the parent as it was before the subscript, unlike
    the planes returned for integers and tuples, which share the parent's
    buffer. *)
Theorem list_subscript_detached (p : Plane.t) (w : world) (vp : ndarray)
    (d : nat) (rest : list nat) (xs : list Z) :
  well_formed p w = true -> Plane.grid p = Arr vp -> nd_dims vp = d :: rest ->
  Forall (fun x => - Z.of_nat d <= x < Z.of_nat d) xs ->
  (1 <= Plane.N p)%nat ->
  exists (v : Plane.t) (w' w'' : world),
    getitem_list p xs w = (Ok (Sub v), w') /\
    Plane.randomize v w' = (Ok v, w'') /\
    cells p w'' = cells p w /\
    storage_rows p w'' = storage_rows p w.
Proof.
  intros Hwf Hg Hd Hxs HN.
  destruct (well_formed_window p w vp Hwf Hg) as (buf & Hbuf & _).
  set (v := list_view p w rest xs).
  set (w' := list_world w vp d rest buf xs).
  set (nb := concat (list_block vp rest buf <$> list_idxs d xs)).
  assert (Hwfv : well_formed v w' = true) by by eapply list_view_well_formed.
  assert (Hnb : bufs w' !! length (bufs w) = Some nb).
  { unfold w', list_world. cbn [bufs]. by rewrite list_lookup_middle. }
  pose proof (randomize_array_closed v w'
                (NdArray (length (bufs w)) 0 (length xs :: rest)) nb
                Hwfv eq_refl) as Hrand.
  exists v, w', (randomized_world (Plane.N v) (NdArray (length (bufs w)) 0 (length xs :: rest)) w' nb
                   (nd_size (NdArray (length (bufs w)) 0 (length xs :: rest)))).
  split; [by apply getitem_list_array|].
  split.
  { apply Hrand; [done|exact HN|exact Hnb]. }
  assert (Hc : cells p (randomized_world (Plane.N v)
                   (NdArray (length (bufs w)) 0 (length xs :: rest)) w' nb
                   (nd_size (NdArray (length (bufs w)) 0 (length xs :: rest))))
               = cells p w).
  { unfold cells. rewrite Hg. unfold randomized_world. cbn [bufs nd_base].
    apply lookup_lt_Some in Hbuf as Hlt.
    rewrite list_lookup_insert_ne by lia.
    unfold w', list_world. cbn [bufs].
    by rewrite (lookup_app_l_Some _ _ _ _ Hbuf), Hbuf. }
  split; [exact Hc|].
  apply storage_rows_frame; [done|exact Hc|].
  intros a r Hr. unfold randomized_world. cbn [rows].
  unfold w', list_world. cbn [rows]. by apply lookup_app_l_Some.
Qed.

Lemma list_subscript_detached_witness :
  let w := World [[true; false]; [false; true]; [true; true]]
                 [[Some 0%nat; Some 1%nat; Some 2%nat]] (fun _ => 5) 0 in
  let p := Plane.Make (Arr (NdArray 0%nat 0%nat [3%nat])) [3%nat; 2%nat] 2%nat in
  well_formed p w = true /\
  exists (v : Plane.t) (w' w'' : world),
    getitem_list p [2; 0] w = (Ok (Sub v), w') /\
    Plane.randomize v w' = (Ok v, w'') /\
    storage_rows p w'' = [[true; false]; [false; true]; [true; true]].
Proof.
  intros w p.
  assert (Hwf : well_formed p w = true) by reflexivity.
  split; [exact Hwf|].
  destruct (list_subscript_detached p w (NdArray 0%nat 0%nat [3%nat]) 3%nat [] [2; 0]
              Hwf eq_refl eq_refl) as (v & w' & w'' & H1 & H2 & _ & H3).
  - repeat (apply Forall_cons; split; [simpl; lia|]). constructor.
  - simpl. lia.
  - exists v, w', w''. split; [exact H1|]. split; [exact H2|]. exact H3.
Defined.

(* --------------------------------------------------------------------- *)
(* 26. The rule parser and the Life example                               *)
(* --------------------------------------------------------------------- *)

#[local] Instance char_le_trans : Transitive char_le.
Proof. intros a b c. unfold char_le. lia. Qed.

#[local] Instance char_le_total : Total char_le.
Proof. intros a b. unfold char_le. lia. Qed.

#[local] Instance char_le_antisymm : AntiSymm eq char_le.
Proof.
  intros a b Hab Hba. unfold char_le in *.
  rewrite <- (ascii_nat_embedding a), <- (ascii_nat_embedding b).
  f_equal. lia.
Qed.

Lemma Sorted_adjacent {A} (R : relation A) (l : list A) :
  Sorted R l <->
  forall i a b, l !! i = Some a -> l !! S i = Some b -> R a b.
Proof.
  induction l as [|x l IH].
  - split; [by intros _ i a b Hi|constructor].
  - split.
    + intros Hs i a b Ha Hb. apply Sorted_inv in Hs as [Hs Hhd].
      destruct i as [|i].
      * simpl in Ha, Hb. injection Ha as ->.
        destruct l as [|y l]; [done|]. simpl in Hb. injection Hb as ->.
        by apply HdRel_inv in Hhd.
      * simpl in Ha, Hb. by apply (proj1 IH Hs i).
    + intros H. constructor.
      * apply IH. intros i a b Ha Hb. by apply (H (S i)).
      * destruct l as [|y l]; constructor. by apply (H 0%nat).
Qed.

Lemma forallb_Forall_true {A} (f : A -> bool) (l : list A) :
  forallb f l = true <-> Forall (fun c => f c = true) l.
Proof.
  induction l as [|x l IH]; simpl.
  - split; [constructor|done].
  - rewrite andb_true_iff, Forall_cons, IH. done.
Qed.

(** X14. [_numasc] accepts exactly the strings whose characters are all
    numeric and stand in non-decreasing order of code point: it compares
    neighbours only for order, so a repeated digit is accepted, and so is
    the empty string. *)
Theorem numasc_iff_numeric_ascending (value : string) :
  CAMParser._numasc value = true <->
  Forall (fun c => isnumeric c = true) (list_ascii_of_string value) /\
  forall i a b,
    list_ascii_of_string value !! i = Some a ->
    list_ascii_of_string value !! S i = Some b ->
    (nat_of_ascii a <= nat_of_ascii b)%nat.
Proof.
  unfold CAMParser._numasc, py_sorted.
  set (l := list_ascii_of_string value).
  rewrite <- (Sorted_adjacent char_le l).
  destruct (forallb isnumeric l) eqn:Hall.
  - apply forallb_Forall_true in Hall as Hnum.
    rewrite String.eqb_eq. split.
    + intros E. split; [done|].
      assert (El : merge_sort char_le l = l).
      { unfold l. rewrite <- E at 2.
        by rewrite list_ascii_of_string_of_list_ascii. }
      rewrite <- El. apply (Sorted_merge_sort char_le).
    + intros [_ Hs].
      assert (El : merge_sort char_le l = l).
      { apply (Sorted_unique char_le); [apply (Sorted_merge_sort char_le)|done|].
        apply merge_sort_Permutation. }
      rewrite El. apply string_of_list_ascii_of_string.
  - split; [done|]. intros [Hnum _].
    apply forallb_Forall_true in Hnum. congruence.
Qed.









Lemma array_get_cells (g : list bool) (i : Z) :
  - Z.of_nat (length g) <= i < Z.of_nat (length g) ->
  array_get (Z.b2z <$> g) i = Ok (Z.b2z (Life.value (cell_at g i))).
Proof.
  intros Hi. unfold array_get, cell_at. rewrite length_fmap.
  rewrite (norm_index_wrap_value i (length g) Hi).
  pose proof (norm_index_wrap_value i (length g) Hi) as Hk.
  apply norm_index_Some in Hk as (Hk & _).
  destruct (lookup_lt_is_Some_2 g _ Hk) as [b Hb].
  by rewrite list_lookup_fmap, Hb.
Qed.

Lemma array_take_cells {T : Type} (g : list bool) (tag : T) (indices : list Z) :
  Forall (fun i => - Z.of_nat (length g) <= i < Z.of_nat (length g)) indices ->
  array_take (Z.b2z <$> g) indices
  = Ok (map (fun x : Life.cell * T => Z.b2z (Life.value (fst x)))
            ((fun i => (cell_at g i, tag)) <$> indices)).
Proof.
  induction indices as [|i l IH]; [done|].
  intros H. apply Forall_cons in H as [Hi Hl].
  cbn [array_take]. rewrite (array_get_cells g i Hi), (IH Hl). done.
Qed.

(** X16. The rule that the parser builds for the notation 23/3 is the rule
    of the Life example: on a flat grid of 0/1 states, for a position and
    neighbour positions within the grid (negative ones counting from the
    end), the function returned by [_mcell "23" "3"] gives 1 exactly when
    [game_of_life] returns True for the cell at that position and the cells
    at the neighbour positions, and 0 when it returns False. *)
Theorem mcell_23_3_is_game_of_life {S T : Type} (g : list bool) (f_index : Z)
    (indices : list Z) (states : S) (tag : T) :
  - Z.of_nat (length g) <= f_index < Z.of_nat (length g) ->
  Forall (fun i => - Z.of_nat (length g) <= i < Z.of_nat (length g)) indices ->
  exists f, @CAMParser._mcell S "23" "3" = Ok f /\
    f f_index (Z.b2z <$> g) indices states
    = Ok (Z.b2z (Life.game_of_life (cell_at g f_index)
                   ((fun i => (cell_at g i, tag)) <$> indices))).
Proof.
  intros Hi Hall. exists (CAMParser.next_state [2; 3] [3]).
  split; [reflexivity|].
  unfold CAMParser.next_state.
  rewrite (array_take_cells g tag indices Hall), (array_get_cells g f_index Hi).
  unfold Life.game_of_life.
  set (total := py_sum _). f_equal. f_equal.
  unfold py_in.
  destruct (Life.value (cell_at g f_index)); cbn [Z.b2z Z.eqb existsb].
  - destruct (Z.eqb_spec total 2); destruct (Z.eqb_spec total 3);
      destruct (Z.ltb_spec total 2); destruct (Z.ltb_spec 3 total);
      simpl; try done; lia.
  - destruct (Z.eqb_spec total 3); done.
Qed.

Lemma mcell_23_3_is_game_of_life_witness :
  exists f, @CAMParser._mcell unit "23" "3" = Ok f /\
    f 1 (Z.b2z <$> [true; false; true; true]) [0; 2; -1] tt
    = Ok (Z.b2z (Life.game_of_life (cell_at [true; false; true; true] 1)
                   ((fun i => (cell_at [true; false; true; true] i, tt))
                      <$> [0; 2; -1]))).
Proof.
  apply (@mcell_23_3_is_game_of_life unit unit [true; false; true; true] 1
           [0; 2; -1] tt tt).
  - simpl. lia.
  - repeat (apply Forall_cons; split; [simpl; lia|]). constructor.
Defined.

(** X17. Construction with default storage gives every cell a row object
    of its own and touches nothing that existed: the cells of the new grid
    hold pairwise distinct rows, each one allocated by the constructor, and
    every row and every buffer of the store before the call is still there
    unchanged. *)
Theorem init_allocates_distinct_rows (shape : list nat) (w : world) :
  exists p w',
    Plane.init shape None w = (Ok p, w') /\
    length (cells p w') = prod_dims (but_last shape) /\
    NoDup (cells p w') /\
    (forall c, c ∈ cells p w' ->
       exists a : addr, c = Some a /\ (length (rows w) <= a)%nat /\
                        rows w' !! a = Some (zeros (Plane.width shape))) /\
    (forall (a : addr) (r : bitarray),
       rows w !! a = Some r -> rows w' !! a = Some r) /\
    (forall b buf, bufs w !! b = Some buf -> bufs w' !! b = Some buf).
Proof.
  destruct (decide (length shape = 1%nat)) as [H1|H1].
  - destruct shape as [|n [|? ?]]; try done.
    eexists _, _. split; [apply init_default_1d|].
    unfold cells. cbn [Plane.grid rows bufs].
    split; [done|]. split; [apply NoDup_singleton|].
    split.
    + intros c Hc. apply list_elem_of_singleton in Hc as ->.
      exists (length (rows w)). split; [done|]. split; [lia|].
      by rewrite list_lookup_middle.
    + split; [|done]. intros a r Hr. by apply lookup_app_l_Some.
  - eexists _, _. split; [by apply init_default_nd|].
    set (sz := prod_dims (but_last shape)).
    set (P := Plane.Make _ _ _). set (W := World _ _ _ _).
    assert (Hcells : cells P W = Some <$> seq (length (rows w)) sz).
    { unfold cells. simpl. rewrite list_lookup_middle by done.
      rewrite drop_0. apply take_ge.
      rewrite length_fmap, length_seq. unfold nd_size. simpl. fold sz. lia. }
    rewrite Hcells. split; [by rewrite length_fmap, length_seq|].
    split.
    { apply NoDup_fmap_2; [apply _|apply NoDup_seq]. }
    split.
    + intros c Hc. apply list_elem_of_fmap in Hc as (a & -> & Ha).
      apply elem_of_seq in Ha. exists a. split; [done|]. split; [lia|].
      unfold W. cbn [rows].
      replace a with (length (rows w) + (a - length (rows w)))%nat by lia.
      rewrite lookup_rows_fresh by lia. done.
    + split.
      * intros a r Hr. unfold W. cbn [rows]. by apply lookup_app_l_Some.
      * intros b buf Hb. unfold W. cbn [bufs]. by apply lookup_app_l_Some.
Qed.
